(** * Admission control and token lifecycle of intuit-demo

    A shallow embedding of

    - [PlayersService/Utils/limiter_strategies.py]
      ([TokenBucket], [LeakyBucket], [FixedWindow]),
    - [PlayersService/main.py] ([check_rate_limit], [check_throttle]),
    - [Common/in_jwt_auth.py] ([authenticate_user], [create_access_token],
      [create_refresh_token], [get_current_user]),

    followed by the properties of the specification that concern them.

    Python is dynamically typed and every statement may raise, so the
    embedding keeps both: values carry their run-time type, and a method
    is a function from the object's state to an outcome (a returned value
    or a raised exception) and the state left behind.  The clock is an
    argument: each call is given what [current_time()] or
    [datetime.now] reads.  The collaborators (Redis, python-jose,
    pydantic, the user table) are modelled at the calls the code makes
    to them. *)

From Stdlib Require Import ZArith QArith Lia Ascii String.
From stdpp Require Import base option list strings pretty gmap.

Open Scope Z_scope.

(** ** Outcomes *)

(** The exceptions that the embedded code can raise.  [HTTPException]
    keeps its status code and detail; [ResponseError] is the Redis
    client's error for a command the server refuses; [JWTError] is
    python-jose's base error (bad signature, malformed token, expired
    token, invalid claim); [NameError] is raised by the use of a global
    name that the module does not bind. *)
Inductive exn : Type :=
| TypeError
| ValueError
| AttributeError
| NameError
| ResponseError
| JWTError
| HTTPException (status_code : Z) (detail : string).

Inductive outcome (A : Type) : Type :=
| Return (a : A)
| Raise (e : exn).
Arguments Return {A} a.
Arguments Raise {A} e.

Definition outcome_bind {A B : Type} (m : outcome A) (k : A -> outcome B)
  : outcome B :=
  match m with
  | Return a => k a
  | Raise e => Raise e
  end.

(** A method over an object (or a store) of type [S]: the state is
    threaded through, and a raised exception keeps the mutations made
    before it. *)
Definition py (S A : Type) : Type := S -> outcome A * S.

Definition py_ret {S A : Type} (a : A) : py S A := fun s => (Return a, s).

Definition py_bind {S A B : Type} (m : py S A) (k : A -> py S B) : py S B :=
  fun s =>
    match m s with
    | (Return a, s') => k a s'
    | (Raise e, s') => (Raise e, s')
    end.

Definition py_lift {S A : Type} (o : outcome A) : py S A := fun s => (o, s).

Definition py_get {S : Type} : py S S := fun s => (Return s, s).

Definition py_modify {S : Type} (f : S -> S) : py S unit :=
  fun s => (Return tt, f s).

Declare Scope py_scope.
Delimit Scope py_scope with py.
Notation "x <- m ;; k" := (py_bind m (fun x => k))
  (at level 20, m at level 99, k at level 200, only parsing) : py_scope.

Ltac unfold_py :=
  unfold py_bind, py_get, py_lift, py_modify, py_ret, outcome_bind in *.

(** ** Run-time values of the limiter strategies *)

(** The values that flow through [limiter_strategies.py]: numbers, and
    the two [datetime] types.  A [float] is idealised as an exact
    rational, kept reduced (no rounding, no infinity, no NaN); a
    [timedelta] and an aware UTC [datetime] are counted in microseconds,
    the resolution Python keeps.  The operators below are exact on these
    integers; the ranges that Python keeps the two types in are
    [timedelta_in_range] and [datetime_in_range] further down. *)
Inductive pyval : Type :=
| PInt (z : Z)
| PFloat (q : Q)
| PTimedelta (us : Z)
| PDatetime (us : Z).

Definition second_us : Z := 1000000.

(** [datetime.timedelta(seconds=n)] *)
Definition timedelta_seconds (n : Z) : pyval := PTimedelta (n * second_us).

(** Round half to even, as [datetime._divide_and_round]. *)
Definition divide_and_round (a b : Z) : Z :=
  let q := a / b in
  let r := a mod b in
  if (2 * r >? b) || ((2 * r =? b) && Z.odd q) then q + 1 else q.

Definition timedelta_mul_float (us : Z) (q : Q) : Z :=
  divide_and_round (us * Qnum q) (Zpos (Qden q)).

(** [a + b] *)
Definition py_add (a b : pyval) : outcome pyval :=
  match a, b with
  | PInt x, PInt y => Return (PInt (x + y))
  | PInt x, PFloat y => Return (PFloat (Qred (inject_Z x + y)))
  | PFloat x, PInt y => Return (PFloat (Qred (x + inject_Z y)))
  | PFloat x, PFloat y => Return (PFloat (Qred (x + y)))
  | PTimedelta x, PTimedelta y => Return (PTimedelta (x + y))
  | PDatetime x, PTimedelta y => Return (PDatetime (x + y))
  | PTimedelta x, PDatetime y => Return (PDatetime (x + y))
  | _, _ => Raise TypeError
  end.

(** [a - b] *)
Definition py_sub (a b : pyval) : outcome pyval :=
  match a, b with
  | PInt x, PInt y => Return (PInt (x - y))
  | PInt x, PFloat y => Return (PFloat (Qred (inject_Z x - y)))
  | PFloat x, PInt y => Return (PFloat (Qred (x - inject_Z y)))
  | PFloat x, PFloat y => Return (PFloat (Qred (x - y)))
  | PTimedelta x, PTimedelta y => Return (PTimedelta (x - y))
  | PDatetime x, PTimedelta y => Return (PDatetime (x - y))
  | PDatetime x, PDatetime y => Return (PTimedelta (x - y))
  | _, _ => Raise TypeError
  end.

(** [a * b] *)
Definition py_mul (a b : pyval) : outcome pyval :=
  match a, b with
  | PInt x, PInt y => Return (PInt (x * y))
  | PInt x, PFloat y => Return (PFloat (Qred (inject_Z x * y)))
  | PFloat x, PInt y => Return (PFloat (Qred (x * inject_Z y)))
  | PFloat x, PFloat y => Return (PFloat (Qred (x * y)))
  | PTimedelta x, PInt y => Return (PTimedelta (x * y))
  | PInt x, PTimedelta y => Return (PTimedelta (x * y))
  | PTimedelta x, PFloat y => Return (PTimedelta (timedelta_mul_float x y))
  | PFloat x, PTimedelta y => Return (PTimedelta (timedelta_mul_float y x))
  | _, _ => Raise TypeError
  end.

Definition Qltb (x y : Q) : bool :=
  (Qnum x * Zpos (Qden y) <? Qnum y * Zpos (Qden x)).

(** [a < b]; numbers compare with numbers, a [timedelta] with a
    [timedelta], a [datetime] with a [datetime]. *)
Definition py_lt (a b : pyval) : outcome bool :=
  match a, b with
  | PInt x, PInt y => Return (x <? y)
  | PInt x, PFloat y => Return (Qltb (inject_Z x) y)
  | PFloat x, PInt y => Return (Qltb x (inject_Z y))
  | PFloat x, PFloat y => Return (Qltb x y)
  | PTimedelta x, PTimedelta y => Return (x <? y)
  | PDatetime x, PDatetime y => Return (x <? y)
  | _, _ => Raise TypeError
  end.

(** [a > b] is [b < a] with the operands' roles swapped. *)
Definition py_gt (a b : pyval) : outcome bool := py_lt b a.

(** [a >= b] *)
Definition py_ge (a b : pyval) : outcome bool :=
  match a, b with
  | PInt x, PInt y => Return (y <=? x)
  | PInt x, PFloat y => Return (negb (Qltb (inject_Z x) y))
  | PFloat x, PInt y => Return (negb (Qltb x (inject_Z y)))
  | PFloat x, PFloat y => Return (negb (Qltb x y))
  | PTimedelta x, PTimedelta y => Return (y <=? x)
  | PDatetime x, PDatetime y => Return (y <=? x)
  | _, _ => Raise TypeError
  end.

(** [min(a, b)]: the first argument unless the second is smaller. *)
Definition py_min (a b : pyval) : outcome pyval :=
  outcome_bind (py_lt b a) (fun smaller =>
  Return (if smaller then b else a)).

(** [int(a)]: truncation towards zero of a number, [TypeError] on a
    [timedelta] or a [datetime]. *)
Definition py_int (a : pyval) : outcome Z :=
  match a with
  | PInt x => Return x
  | PFloat q => Return (Z.quot (Qnum q) (Zpos (Qden q)))
  | PTimedelta _ | PDatetime _ => Raise TypeError
  end.

(** [current_time()]: [datetime.datetime.now(datetime.timezone.utc)], read
    from a clock that shows [t] microseconds since the epoch. *)
Definition current_time (t : Z) : pyval := PDatetime t.

(** *** What Python can hold *)

(** A [timedelta] lies between -999999999 days and just under 1000000000
    days, an aware UTC [datetime] between the years 1 and 9999; where an
    operation would give a value beyond, Python raises [OverflowError]
    instead (and [timedelta * float] raises on an infinity or a NaN,
    which [PFloat] does not hold).  [py_add], [py_sub] and [py_mul] go on
    with the exact integer there, so what is proved of results near
    these limits is proved under the condition that they are in
    range. *)
Definition day_us : Z := 86400 * second_us.

Definition timedelta_in_range (us : Z) : bool :=
  (-999999999 * day_us <=? us) && (us <? 1000000000 * day_us).

(** From 0001-01-01 00:00:00 to 9999-12-31 23:59:59.999999, counted from
    the epoch. *)
Definition datetime_in_range (us : Z) : bool :=
  (-62135596800 * second_us <=? us) && (us <? 253402300800 * second_us).

Definition py_in_range (v : pyval) : bool :=
  match v with
  | PInt _ | PFloat _ => true
  | PTimedelta us => timedelta_in_range us
  | PDatetime us => datetime_in_range us
  end.

(** An operation's result, where it has one, is a value that Python can
    hold. *)
Definition result_in_range (o : outcome pyval) : bool :=
  match o with
  | Return v => py_in_range v
  | Raise _ => true
  end.

(** ** [limiter_strategies.py] *)

(** *** [class TokenBucket] *)
Module TokenBucket.

Record t : Type := mk {
  capacity : pyval;
  tokens : pyval;
  refill_rate : pyval;
  last_refill_timestamp : pyval
}.

Definition set_tokens (v : pyval) (self : t) : t :=
  mk (capacity self) v (refill_rate self) (last_refill_timestamp self).

Definition set_last_refill_timestamp (v : pyval) (self : t) : t :=
  mk (capacity self) (tokens self) (refill_rate self) v.

(** [__init__(self, capacity, refill_rate)]; [now] is what
    [current_time()] returns. *)
Definition init (capacity refill_rate now : pyval) : t :=
  mk capacity capacity refill_rate now.

(** [refill_tokens(self)]; [now] is what [current_time()] returns. *)
Definition refill_tokens (now : pyval) : py t unit :=
  (self <- py_get ;;
   elapsed <- py_lift (py_sub now (last_refill_timestamp self)) ;;
   self <- py_get ;;
   tokens_to_add <- py_lift (py_mul elapsed (refill_rate self)) ;;
   self <- py_get ;;
   total <- py_lift (py_add (tokens self) tokens_to_add) ;;
   least <- py_lift (py_min (capacity self) total) ;;
   _ <- py_modify (set_tokens least) ;;
   py_modify (set_last_refill_timestamp now))%py.

(** [allow_request(self)] *)
Definition allow_request (now : pyval) : py t bool :=
  (_ <- refill_tokens now ;;
   self <- py_get ;;
   positive <- py_lift (py_gt (tokens self) (PInt 0)) ;;
   if positive then
     self <- py_get ;;
     less <- py_lift (py_sub (tokens self) (PInt 1)) ;;
     _ <- py_modify (set_tokens less) ;;
     py_ret true
   else py_ret false)%py.

(** Calls made one after the other, one for each clock reading of the
    list: their outcomes and the bucket they leave. *)
Fixpoint allow_requests (nows : list pyval) (self : t)
  : list (outcome bool) * t :=
  match nows with
  | [] => ([], self)
  | now :: rest =>
      let '(o, self') := allow_request now self in
      let '(os, self'') := allow_requests rest self' in
      (o :: os, self'')
  end.

(** Reading the clock with [current_time] leaves a [datetime] in
    [last_refill_timestamp], whatever the call does next. *)
Definition stamped (self : t) : Prop :=
  exists t0, last_refill_timestamp self = PDatetime t0.

(** The buckets that a program can hold: built by [__init__] and used
    through [allow_request], the clock read by [current_time]. *)
Inductive reachable : t -> Prop :=
| reachable_init (capacity refill_rate : pyval) (t0 : Z) :
    reachable (init capacity refill_rate (current_time t0))
| reachable_call (self : t) (now : Z) :
    reachable self -> reachable (allow_request (current_time now) self).2.

End TokenBucket.

(** *** [class LeakyBucket] *)
Module LeakyBucket.

Section Requests.

(** The type of what the caller passes as [request]. *)
Context {R : Type}.

Record t : Type := mk {
  capacity : pyval;
  leak_rate : pyval;
  queue : list R;
  last_leak_timestamp : pyval
}.

Definition set_queue (q : list R) (self : t) : t :=
  mk (capacity self) (leak_rate self) q (last_leak_timestamp self).

Definition set_last_leak_timestamp (v : pyval) (self : t) : t :=
  mk (capacity self) (leak_rate self) (queue self) v.

(** [__init__(self, capacity, leak_rate)] *)
Definition init (capacity leak_rate now : pyval) : t :=
  mk capacity leak_rate [] now.

(** [if self.queue: self.queue.pop(0)] *)
Definition pop_front (self : t) : t :=
  match queue self with
  | [] => self
  | _ :: q => set_queue q self
  end.

(** [for _ in range(n): if self.queue: self.queue.pop(0)] *)
Fixpoint leak_loop (n : nat) (self : t) : t :=
  match n with
  | O => self
  | S n' => leak_loop n' (pop_front self)
  end.

(** [leak(self)] *)
Definition leak (now : pyval) : py t unit :=
  (self <- py_get ;;
   elapsed <- py_lift (py_sub now (last_leak_timestamp self)) ;;
   self <- py_get ;;
   leaks <- py_lift (py_mul elapsed (leak_rate self)) ;;
   n <- py_lift (py_int leaks) ;;
   _ <- py_modify (leak_loop (Z.to_nat n)) ;;
   py_modify (set_last_leak_timestamp now))%py.

(** [allow_request(self, request)] *)
Definition allow_request (now : pyval) (request : R) : py t bool :=
  (_ <- leak now ;;
   self <- py_get ;;
   room <- py_lift (py_lt (PInt (Z.of_nat (length (queue self))))
                          (capacity self)) ;;
   if room then
     _ <- py_modify (fun self => set_queue (queue self ++ [request]) self) ;;
     py_ret true
   else py_ret false)%py.

(** The buckets that a program can hold. *)
Inductive reachable : t -> Prop :=
| reachable_init (capacity leak_rate : pyval) (t0 : Z) :
    reachable (init capacity leak_rate (current_time t0))
| reachable_call (self : t) (now : Z) (request : R) :
    reachable self ->
    reachable (allow_request (current_time now) request self).2.

End Requests.

Arguments t R : clear implicits.

End LeakyBucket.

(** *** [class FixedWindow] *)
Module FixedWindow.

Record t : Type := mk {
  limit : pyval;
  window_size : pyval;
  counter : pyval;
  window_start : pyval
}.

Definition set_counter (v : pyval) (self : t) : t :=
  mk (limit self) (window_size self) v (window_start self).

Definition set_window_start (v : pyval) (self : t) : t :=
  mk (limit self) (window_size self) (counter self) v.

(** [__init__(self, limit, window_size)] *)
Definition init (limit window_size now : pyval) : t :=
  mk limit window_size (PInt 0) now.

(** [allow_request(self)].  The method reads the clock twice: [now] is
    the reading that is compared with the end of the window, [now']
    the later one that becomes the new [window_start]. *)
Definition allow_request (now now' : pyval) : py t bool :=
  (self <- py_get ;;
   window_end <- py_lift (py_add (window_start self) (window_size self)) ;;
   over <- py_lift (py_ge now window_end) ;;
   if over then
     _ <- py_modify (set_window_start now') ;;
     _ <- py_modify (set_counter (PInt 1)) ;;
     py_ret true
   else
     self <- py_get ;;
     below <- py_lift (py_lt (counter self) (limit self)) ;;
     if below then
       self <- py_get ;;
       more <- py_lift (py_add (counter self) (PInt 1)) ;;
       _ <- py_modify (set_counter more) ;;
       py_ret true
     else py_ret false)%py.

(** Calls made one after the other; each takes its two clock readings. *)
Fixpoint allow_requests (nows : list (pyval * pyval)) (self : t)
  : list (outcome bool) * t :=
  match nows with
  | [] => ([], self)
  | (now, now') :: rest =>
      let '(o, self') := allow_request now now' self in
      let '(os, self'') := allow_requests rest self' in
      (o :: os, self'')
  end.

End FixedWindow.

(** ** The shared counter store *)

(** The Redis commands used by [PlayersService/main.py], over a store
    whose keys expire.  Time is the server's clock in microseconds. *)
Module Redis.

(** The strings this code writes, kept by their parts: [Counter n] is
    the decimal text of [n] that [INCR] leaves, and
    [Throttle count reset_time] is the text [f"{count}:{reset_time}"],
    [count] by its numeric value and [reset_time] an aware UTC datetime
    in microseconds.  Both are non-empty strings. *)
Inductive value : Type :=
| Counter (n : Z)
| Throttle (count reset_time : Z).

Record entry : Type := mk_entry {
  val : value;
  expires_at : option Z
}.

Abbreviation store := (gmap string entry).

(** A key is there up to and at the instant of its expiry, and gone
    after it. *)
Definition live (now : Z) (e : entry) : bool :=
  match expires_at e with
  | None => true
  | Some deadline => now <=? deadline
  end.

(** [GET key] *)
Definition get (key : string) (now : Z) (st : store) : option value :=
  match st !! key with
  | Some e => if live now e then Some (val e) else None
  | None => None
  end.

(** The time to live of [key], kept by [INCR]. *)
Definition ttl (key : string) (now : Z) (st : store) : option Z :=
  match st !! key with
  | Some e => if live now e then expires_at e else None
  | None => None
  end.

(** [INCR key]: a missing key counts from 0 and gets no expiry; a value
    that is not an integer is refused.  The counter is not bounded here
    (the server keeps it in 64 bits and refuses to go beyond). *)
Definition incr (key : string) (now : Z) : py store Z :=
  fun st =>
    match get key now st with
    | None => (Return 1, <[key := mk_entry (Counter 1) None]> st)
    | Some (Counter n) =>
        (Return (n + 1),
         <[key := mk_entry (Counter (n + 1)) (ttl key now st)]> st)
    | Some (Throttle _ _) => (Raise ResponseError, st)
    end.

(** [EXPIRE key seconds]: nothing on a missing key; a time to live that
    is not positive deletes the key. *)
Definition expire (key : string) (seconds now : Z) : py store bool :=
  fun st =>
    match get key now st with
    | None => (Return false, st)
    | Some v =>
        if seconds <=? 0 then (Return true, delete key st)
        else (Return true,
              <[key := mk_entry v (Some (now + seconds * second_us))]> st)
    end.

(** [SET key value EX seconds]; the server refuses an expiry that is not
    positive. *)
Definition set_ex (key : string) (v : value) (seconds now : Z)
  : py store unit :=
  fun st =>
    if seconds <=? 0 then (Raise ResponseError, st)
    else (Return tt,
          <[key := mk_entry v (Some (now + seconds * second_us))]> st).

End Redis.

(** ** [PlayersService/main.py] *)
Module PlayersService.

(** The constants of lines 19 to 24. *)
Record config : Type := mk_config {
  RATE_LIMIT : Z;
  RATE_PERIOD : Z;
  THROTTLE_LIMIT : Z;
  THROTTLE_PERIOD : Z;
  COOLDOWN_PERIOD : Z
}.

Definition settings : config := mk_config 5 60 5 60 30.

(** [f"rate_limit:{ip}"] and [f"throttle:{ip}"] *)
Definition rate_limit_key (ip : string) : string :=
  ("rate_limit:" ++ ip)%string.

Definition throttle_key (ip : string) : string :=
  ("throttle:" ++ ip)%string.

(** [int(current)] on a value read from the store. *)
Definition int_of_value (v : Redis.value) : outcome Z :=
  match v with
  | Redis.Counter n => Return n
  | Redis.Throttle _ _ => Raise ValueError
  end.

(** [check_rate_limit(ip, redis)], called when the clock shows [now]. *)
Definition check_rate_limit (cfg : config) (ip : string) (now : Z)
  : py Redis.store bool :=
  let key := rate_limit_key ip in
  (st <- py_get ;;
   let current := Redis.get key now st in
   reached <- py_lift
     match current with
     | None => Return false
     | Some v =>
         outcome_bind (int_of_value v) (fun n => Return (RATE_LIMIT cfg <=? n))
     end ;;
   if reached then py_ret false
   else
     (* pipeline.incr(key); pipeline.expire(key, RATE_PERIOD);
        pipeline.execute(): both commands run, then the first error is
        raised. *)
     fun st =>
       let '(o, st1) := Redis.incr key now st in
       let '(_, st2) := Redis.expire key (RATE_PERIOD cfg) now st1 in
       match o with
       | Return _ => (Return true, st2)
       | Raise e => (Raise e, st2)
       end)%py.

(** The store after an admitted request that found the counter of [ip]
    at [count]. *)
Definition counted (cfg : config) (ip : string) (now count : Z)
    (st : Redis.store) : Redis.store :=
  <[rate_limit_key ip :=
      Redis.mk_entry (Redis.Counter (count + 1))
        (Some (now + RATE_PERIOD cfg * second_us))]> st.

(** Requests of one client, one after the other, at the given times. *)
Fixpoint check_rate_limits (cfg : config) (ip : string) (times : list Z)
    (st : Redis.store) : list (outcome bool) * Redis.store :=
  match times with
  | [] => ([], st)
  | t :: rest =>
      let '(o, st') := check_rate_limit cfg ip t st in
      let '(os, st'') := check_rate_limits cfg ip rest st' in
      (o :: os, st'')
  end.

(** [timedelta.seconds]: the seconds field of the normalised
    (days, seconds, microseconds) form, between 0 and 86399. *)
Definition timedelta_seconds_field (us : Z) : Z :=
  (us mod (86400 * second_us)) / second_us.

(** What [datetime.strptime] gives in [main.py]: line 2 is
    [import datetime], so [datetime] is the module, which has no
    attribute [strptime]. *)
Definition datetime_strptime (reset_time : Z) : outcome Z :=
  Raise AttributeError.

(** [datetime.datetime.strptime(text, "%Y-%m-%d %H:%M:%S.%f%z")] on the
    text that [str] gives for the aware datetime [reset_time]: [str]
    leaves the fraction out when the microseconds are 0, and the format
    requires it. *)
Definition datetime_datetime_strptime (reset_time : Z) : outcome Z :=
  if reset_time mod second_us =? 0 then Raise ValueError
  else Return reset_time.

(** Lines 99 to 121 of [check_throttle]: the early rejection with the
    time left ([inl]), or the count and the reset time that the request
    goes on with ([inr]).  [strptime] is what the attribute lookup
    [datetime.strptime] of line 108 yields. *)
Definition throttle_current (cfg : config) (strptime : Z -> outcome Z)
    (key : string) (current_time : Z) (st : Redis.store)
  : outcome (Z + Z * Z) :=
  match Redis.get key current_time st with
  | Some current =>
      (* count, reset_time = current.split(":", 1); count = float(count) *)
      match current with
      | Redis.Counter _ => Raise ValueError
      | Redis.Throttle count reset_text =>
          outcome_bind (strptime reset_text) (fun reset_time =>
          if current_time <? reset_time
          then Return (inl (reset_time - current_time))
          else
            let count := if reset_time <=? current_time then 0 else count in
            Return (inr (count, reset_time)))
      end
  | None => Return (inr (0, current_time + THROTTLE_PERIOD cfg * second_us))
  end.

(** Lines 123 to 138 of [check_throttle]. *)
Definition throttle_count (cfg : config) (key : string) (current_time : Z)
    (count reset_time : Z) : py Redis.store (bool * option Z) :=
  let count := count + 1 in
  let '(count, reset_time) :=
    if THROTTLE_LIMIT cfg <? count
    then (0, current_time + COOLDOWN_PERIOD cfg * second_us)
    else (count, reset_time) in
  (_ <- Redis.set_ex key (Redis.Throttle count reset_time)
         (Z.max (timedelta_seconds_field (reset_time - current_time)) 1)
         current_time ;;
   py_ret (true, None))%py.

(** [check_throttle(ip, redis)], called when the clock shows
    [current_time]; the result is the pair [(allowed, cooldown_time)]. *)
Definition check_throttle (cfg : config) (strptime : Z -> outcome Z)
    (ip : string) (current_time : Z) : py Redis.store (bool * option Z) :=
  let key := throttle_key ip in
  (st <- py_get ;;
   start <- py_lift (throttle_current cfg strptime key current_time st) ;;
   match start with
   | inl remaining => py_ret (false, Some remaining)
   | inr (count, reset_time) =>
       throttle_count cfg key current_time count reset_time
   end)%py.

(** Requests of one client, one after the other, at the given times. *)
Fixpoint check_throttles (cfg : config) (strptime : Z -> outcome Z)
    (ip : string) (times : list Z) (st : Redis.store)
  : list (outcome (bool * option Z)) * Redis.store :=
  match times with
  | [] => ([], st)
  | t :: rest =>
      let '(o, st') := check_throttle cfg strptime ip t st in
      let '(os, st'') := check_throttles cfg strptime ip rest st' in
      (o :: os, st'')
  end.

(** *** The two HTTP middlewares *)

(** [int(cooldown_time)] of line 150, on the second component of what
    [check_throttle] returns: a [timedelta], or [None]. *)
Definition int_of_cooldown_time (cooldown_time : option Z) : outcome Z :=
  match cooldown_time with
  | Some remaining => py_int (PTimedelta remaining)
  | None => Raise TypeError
  end.

Section Middleware.

Context {Response : Type}.

(** [rate_limit_middleware(request, call_next)] for a request whose
    [request.client.host] is [client_ip]; [call_next] is the rest of the
    application, run on the store the check leaves. *)
Definition rate_limit_middleware (cfg : config) (client_ip : string)
    (now : Z) (call_next : py Redis.store Response)
  : py Redis.store Response :=
  (allowed <- check_rate_limit cfg client_ip now ;;
   if negb allowed
   then py_lift (Raise (HTTPException 429 "Rate limit exceeded"))
   else call_next)%py.

(** [throttle_middleware(request, call_next)] *)
Definition throttle_middleware (cfg : config) (strptime : Z -> outcome Z)
    (client_ip : string) (now : Z) (call_next : py Redis.store Response)
  : py Redis.store Response :=
  (answer <- check_throttle cfg strptime client_ip now ;;
   let '(allowed, cooldown_time) := answer in
   if negb allowed then
     seconds <- py_lift (int_of_cooldown_time cooldown_time) ;;
     py_lift (Raise (HTTPException 429
                       ("Too many requests. Please wait " ++ pretty seconds
                        ++ " seconds.")))
   else call_next)%py.

(** The two functions as the decorators of lines 83 and 141 stack them:
    the one registered last is the outer one.  The throttle reads the
    clock at [now], the rate limit after it at [now']. *)
Definition http_middlewares (cfg : config) (strptime : Z -> outcome Z)
    (client_ip : string) (now now' : Z) (endpoint : py Redis.store Response)
  : py Redis.store Response :=
  throttle_middleware cfg strptime client_ip now
    (rate_limit_middleware cfg client_ip now' endpoint).

End Middleware.

(** *** The cache key *)

(** [sep.join(parts)] *)
Fixpoint join (sep : string) (parts : list string) : string :=
  match parts with
  | [] => EmptyString
  | part :: rest =>
      match rest with
      | [] => part
      | _ :: _ => part ++ sep ++ join sep rest
      end
  end%string.

(** [custom_key_builder(func, namespace, request)], by [func.__name__],
    [request.url.path] and the pairs of [request.query_params.items()]. *)
Definition custom_key_builder (func_name namespace path : string)
    (query_params : list (string * string)) : string :=
  let cache_key := (namespace ++ ":" ++ func_name ++ ":" ++ path)%string in
  let query_params :=
    join "&" (map (fun '(key, value) => key ++ "=" ++ value)%string
                query_params) in
  (cache_key ++ "?" ++ query_params)%string.

End PlayersService.

(** ** [Common/in_jwt_auth.py] *)
Module Common.

(** *** Tokens *)

(** A value of a token's claims set (JSON): null, an integer or a
    string, the ones that this module writes and reads; booleans,
    fractions, lists and objects are left out. *)
Inductive jvalue : Type :=
| JNull
| JInt (n : Z)
| JStr (s : string).

(** A header value: either what [jwt.encode] made of a claims set with a
    key and an algorithm, or any other text.  Signatures are taken as
    unforgeable: only [jwt.encode] with the same key makes a token that
    [jwt.decode] accepts. *)
Inductive token : Type :=
| Jwt (key algorithm : string) (payload : gmap string jvalue)
| Text (s : string).

(** Truth value of the header string: false on the empty string only. *)
Definition truthy (tok : token) : bool :=
  match tok with
  | Jwt _ _ _ => true
  | Text s => negb (String.eqb s EmptyString)
  end.

(** [payload.get(name)]: [None] (here [JNull]) when the claim is absent. *)
Definition get (payload : gmap string jvalue) (name : string) : jvalue :=
  default JNull (payload !! name).

(** The calls to the token library that a run makes, in order. *)
Inductive event : Type :=
| Decode (tok : token)
| Encode (tok : token).

(** [raise] *)
Definition raise {S A : Type} (e : exn) : py S A := fun s => (Raise e, s).

(** [try: body except JWTError: handler] *)
Definition except_JWTError {S A : Type} (body handler : py S A) : py S A :=
  fun s =>
    match body s with
    | (Raise JWTError, s') => handler s'
    | r => r
    end.

(** *** [int(text)] *)

(** A [str] is held by its characters, one [ascii] each; what follows is
    Python's [int] on a text of characters below 128.  (On a text with
    other characters Python also reads the decimal digits and strips the
    white space of other scripts; here such a text is no number.) *)

Definition is_space (c : ascii) : bool :=
  let n := Z.of_nat (nat_of_ascii c) in
  ((9 <=? n) && (n <=? 13)) || (n =? 32).

Definition digit_of (c : ascii) : option Z :=
  let n := Z.of_nat (nat_of_ascii c) in
  if (48 <=? n) && (n <=? 57) then Some (n - 48) else None.

(** Decimal digits, single underscores allowed between two digits. *)
Fixpoint digits (acc : Z) (after_digit : bool) (l : list ascii) : option Z :=
  match l with
  | [] => if after_digit then Some acc else None
  | c :: l' =>
      match digit_of c with
      | Some d => digits (10 * acc + d) true l'
      | None =>
          if Ascii.eqb c "_"%char && after_digit then digits acc false l'
          else None
      end
  end.

Fixpoint lstrip (l : list ascii) : list ascii :=
  match l with
  | c :: l' => if is_space c then lstrip l' else l
  | [] => []
  end.

Definition strip (l : list ascii) : list ascii :=
  rev (lstrip (rev (lstrip l))).

(** [int(s)] on a [str]: surrounding white space, an optional sign,
    decimal digits (ASCII digits only). *)
Definition int_of_str (s : string) : outcome Z :=
  let signed :=
    match strip (list_ascii_of_string s) with
    | "+"%char :: l => digits 0 false l
    | "-"%char :: l => Z.opp <$> digits 0 false l
    | l => digits 0 false l
    end in
  match signed with
  | Some n => Return n
  | None => Raise ValueError
  end.

(** [int(v)] on a claim value. *)
Definition int_of_jvalue (v : jvalue) : outcome Z :=
  match v with
  | JInt n => Return n
  | JStr s => int_of_str s
  | JNull => Raise TypeError
  end.

(** *** The user schema, [in_schemas.User] *)

(** A value of an attribute of a model instance. *)
Inductive attr : Type :=
| ANone
| AInt (n : Z)
| AStr (s : string)
| AToken (tok : token).

(** The fields that [class User(BaseModel)] declares. *)
Definition User_fields : list string :=
  ["userId"; "userName"; "fullName"; "email"; "token"]%string.

(** [user.name = value] on a [User]: pydantic's [BaseModel.__setattr__]
    refuses a name that is not a declared field. *)
Definition User_setattr (name : string) (value : attr)
    (user : gmap string attr) : outcome (gmap string attr) :=
  if bool_decide (name ∈ User_fields) then Return (<[name := value]> user)
  else Raise ValueError.

(** [in_schemas.Token] *)
Record Token : Type := mk_Token {
  access_token : token;
  refresh_token : token;
  token_type : string
}.

(** What the module takes from files that are not part of the sources:
    the four constants that lines 6 to 11 import from
    [Common/in_config.py] ([ALGORITHM] being one that the token library
    signs with), the stored user record of
    [Common/in_models.py] with the two attributes the code reads and the
    schema instance that line 212 builds from the record's
    [model_dump()] (by its validated field values), and passlib's
    [pwd_context.verify].  [RATE_LIMIT] is what the global name of line
    167 is bound to when [get_current_user] runs: nothing ([None]) in the
    module as it is written, which neither defines nor imports the name;
    [Some] ceiling in a module that binds it. *)
Record environment : Type := mk_environment {
  SECRET_KEY : string;
  ALGORITHM : string;
  ACCESS_TOKEN_EXPIRE_MINUTES : Z;
  REFRESH_TOKEN_EXPIRE_DAYS : Z;
  RATE_LIMIT : option Z;
  DBUser : Type;
  username : DBUser -> string;
  hashed_password : DBUser -> string;
  User_of : DBUser -> outcome (gmap string attr);
  verify_password : string -> string -> bool
}.

(** *** The claims that python-jose checks *)

(** A time claim ([iat], [nbf], [exp]) as the library reads it,
    [int(claims[name])]: a [ValueError] of [int] is turned into a
    [JWTError], a [TypeError] (the claim is null) gets out as it is. *)
Definition time_claim (payload : gmap string jvalue) (name : string)
  : outcome (option Z) :=
  match payload !! name with
  | None => Return None
  | Some v =>
      match int_of_jvalue v with
      | Return n => Return (Some n)
      | Raise ValueError => Raise JWTError
      | Raise e => Raise e
      end
  end.

(** A claim that has to be a string where it is present ([sub], [jti]). *)
Definition string_claim (payload : gmap string jvalue) (name : string)
  : outcome unit :=
  match payload !! name with
  | None | Some (JStr _) => Return tt
  | Some _ => Raise JWTError
  end.

(** A claim that no call of this module can meet: [aud], which is
    compared with the audience that [jwt.decode] is given (none), and
    [at_hash], which needs the access token it is given (none). *)
Definition unmet_claim (payload : gmap string jvalue) (name : string)
  : outcome unit :=
  match payload !! name with
  | None => Return tt
  | Some _ => Raise JWTError
  end.

(** [jose.jwt._validate_claims] under the default options, without
    audience, issuer, subject or access token, when the clock shows
    [now] seconds: [iat] is read, [nbf] must not be ahead, [exp] must not
    be past, and then [aud], [sub], [jti] and [at_hash] are looked at, in
    this order. *)
Definition validate_claims (payload : gmap string jvalue) (now : Z)
  : outcome unit :=
  outcome_bind (time_claim payload "iat") (fun _ =>
  outcome_bind (time_claim payload "nbf") (fun nbf =>
  outcome_bind
    match nbf with
    | Some nbf => if now <? nbf then Raise JWTError else Return tt
    | None => Return tt
    end (fun _ =>
  outcome_bind (time_claim payload "exp") (fun exp =>
  outcome_bind
    match exp with
    | Some exp => if exp <? now then Raise JWTError else Return tt
    | None => Return tt
    end (fun _ =>
  outcome_bind (unmet_claim payload "aud") (fun _ =>
  outcome_bind (string_claim payload "sub") (fun _ =>
  outcome_bind (string_claim payload "jti") (fun _ =>
  unmet_claim payload "at_hash")))))))).

Section Auth.

Context (env : environment).

(** [jwt.decode(tok, SECRET_KEY, algorithms=[ALGORITHM])] when the clock
    shows [now] seconds: the signature and the algorithm must match and
    the claims must pass [validate_claims]; any failure is a [JWTError],
    but for the [TypeError] of a time claim that is null. *)
Definition jwt_decode (tok : token) (now : Z)
  : py (list event) (gmap string jvalue) :=
  fun log =>
    let log := log ++ [Decode tok] in
    match tok with
    | Text _ => (Raise JWTError, log)
    | Jwt key algorithm payload =>
        if negb (String.eqb key (SECRET_KEY env)
                  && String.eqb algorithm (ALGORITHM env))
        then (Raise JWTError, log)
        else
          (outcome_bind (validate_claims payload now) (fun _ =>
           Return payload), log)
    end.

(** [jwt.encode(to_encode, SECRET_KEY, algorithm=ALGORITHM)] *)
Definition jwt_encode (to_encode : gmap string jvalue)
  : py (list event) token :=
  fun log =>
    let tok := Jwt (SECRET_KEY env) (ALGORITHM env) to_encode in
    (Return tok, log ++ [Encode tok]).

(** [create_access_token(data, expires_delta)]; [expires_delta] in
    seconds, [None] or a zero [timedelta] taking the default. *)
Definition create_access_token (data : gmap string jvalue)
    (expires_delta : option Z) (now : Z) : py (list event) token :=
  let expire :=
    match expires_delta with
    | Some delta =>
        if delta =? 0 then now + ACCESS_TOKEN_EXPIRE_MINUTES env * 60
        else now + delta
    | None => now + ACCESS_TOKEN_EXPIRE_MINUTES env * 60
    end in
  jwt_encode (<["exp"%string := JInt expire]> data).

(** [create_refresh_token(data, expires_delta)] *)
Definition create_refresh_token (data : gmap string jvalue)
    (expires_delta : option Z) (now : Z) : py (list event) token :=
  let expire :=
    match expires_delta with
    | Some delta =>
        if delta =? 0 then now + REFRESH_TOKEN_EXPIRE_DAYS env * 86400
        else now + delta
    | None => now + REFRESH_TOKEN_EXPIRE_DAYS env * 86400
    end in
  jwt_encode (<["exp"%string := JInt expire]> data).

(** [authenticate_user(user_id, password)] over the user table [db]. *)
Definition authenticate_user (db : gmap Z (DBUser env)) (user_id : Z)
    (password : string) (now : Z) : py (list event) Token :=
  match db !! user_id with
  | Some user =>
      if negb (verify_password env password (hashed_password env user))
      then raise (HTTPException 401 "Incorrect username or password")
      else
        (let data : gmap string jvalue :=
           <["req_count"%string := JInt 0]>
             {["sub"%string := JStr (username env user)]} in
         access <- create_access_token data
                     (Some (ACCESS_TOKEN_EXPIRE_MINUTES env * 60)) now ;;
         refresh <- create_refresh_token data
                      (Some (REFRESH_TOKEN_EXPIRE_DAYS env * 86400)) now ;;
         py_ret (mk_Token access refresh "JWT"))%py
  | None => raise (HTTPException 401 "Incorrect username or password")
  end.

(** The access token that the refresh branch of [get_current_user]
    mints for [subject] (lines 192 to 195). *)
Definition rotated (subject : jvalue) (now : Z) : token :=
  Jwt (SECRET_KEY env) (ALGORITHM env)
    (<["exp"%string := JInt (now + ACCESS_TOKEN_EXPIRE_MINUTES env * 60)]>
       {["sub"%string := subject]}).

(** [req_count > RATE_LIMIT]: the global name is looked up before the
    two are compared, and the lookup of a name that is not bound raises
    [NameError]. *)
Definition over_limit (req_count : jvalue) : outcome bool :=
  match RATE_LIMIT env with
  | None => Raise NameError
  | Some limit =>
      match req_count with
      | JInt n => Return (limit <? n)
      | JNull | JStr _ => Raise TypeError
      end
  end.

(** Lines 162 to 203 of [get_current_user]: the subject, and the access
    token minted on the way if there is one.  Lines 167 to 173 of the
    source are an unfinished edit (the [raise HTTPException(] call is not
    closed and is followed by an empty [else:]); they are read as the
    [if] that raises 429 and has nothing else to do. *)
Definition current_subject (x_access_token x_refresh_token : token)
    (now : Z) : py (list event) (jvalue * option token) :=
  except_JWTError
    (payload <- jwt_decode x_access_token now ;;
     let username := get payload "sub" in
     let req_count := get payload "req_count" in
     over <- py_lift (over_limit req_count) ;;
     if over then raise (HTTPException 429 "Rate limit exceeded")
     else
       match username with
       | JNull => raise (HTTPException 401 "Access token is invalid")
       | _ => py_ret (username, None)
       end)%py
    (except_JWTError
       (payload <- jwt_decode x_refresh_token now ;;
        let username := get payload "sub" in
        match username with
        | JNull => raise (HTTPException 401 "Refresh token is invalid")
        | _ =>
            new_access_token <-
              create_access_token {["sub"%string := username]}
                (Some (ACCESS_TOKEN_EXPIRE_MINUTES env * 60)) now ;;
            py_ret (username, Some new_access_token)
        end)%py
       (raise (HTTPException 401 "Refresh token is expired"))).

(** Lines 205 to 218 of [get_current_user]. *)
Definition current_user_of (db : gmap Z (DBUser env)) (x_refresh_token : token)
    (username : jvalue) (new_access_token : option token)
  : outcome (gmap string attr) :=
  outcome_bind (int_of_jvalue username) (fun user_id =>
  match db !! user_id with
  | None => Raise (HTTPException 401 "Could not validate credentials")
  | Some user =>
      outcome_bind (User_of env user) (fun user =>
      match new_access_token with
      | Some new_access_token =>
          if truthy new_access_token then
            outcome_bind
              (User_setattr "access_token" (AToken new_access_token) user)
              (fun user =>
               User_setattr "refresh_token" (AToken x_refresh_token) user)
          else Return user
      | None => Return user
      end)
  end).

(** [get_current_user(x_access_token, x_refresh_token)] over the user
    table [db], when the clock shows [now] seconds. *)
Definition get_current_user (db : gmap Z (DBUser env))
    (x_access_token x_refresh_token : token) (now : Z)
  : py (list event) (gmap string attr) :=
  if negb (truthy x_access_token) || negb (truthy x_refresh_token)
  then raise (HTTPException 401 "Access token or refresh token is missing")
  else
    (subject <- current_subject x_access_token x_refresh_token now ;;
     py_lift (current_user_of db x_refresh_token subject.1 subject.2))%py.

End Auth.

(** [user.name] read on a [User]: a name that is neither a declared
    field nor a member of the model class has no value. *)
Definition User_getattr (name : string) (user : gmap string attr)
  : outcome attr :=
  if bool_decide (name ∈ User_fields) then Return (default ANone (user !! name))
  else Raise AttributeError.

(** Truth value of an attribute's value. *)
Definition attr_truthy (a : attr) : bool :=
  match a with
  | ANone => false
  | AInt n => negb (n =? 0)
  | AStr s => negb (String.eqb s EmptyString)
  | AToken tok => truthy tok
  end.

(** [get_current_active_user(current_user)] *)
Definition get_current_active_user (current_user : gmap string attr)
  : outcome (gmap string attr) :=
  outcome_bind (User_getattr "disabled" current_user) (fun disabled =>
  if attr_truthy disabled then Raise (HTTPException 400 "Inactive user")
  else Return current_user).

(** The same with its parameter resolved as declared,
    [current_user: User = Depends(get_current_user)]. *)
Definition Depends_get_current_active_user (env : environment)
    (db : gmap Z (DBUser env)) (x_access_token x_refresh_token : token)
    (now : Z) : py (list event) (gmap string attr) :=
  (current_user <- get_current_user env db x_access_token x_refresh_token now ;;
   py_lift (get_current_active_user current_user))%py.

(** *** A user table for the examples *)

Record user_row : Type := mk_user_row {
  row_id : Z;
  row_username : string;
  row_hashed_password : string;
  row_full_name : string
}.

Definition demo_User_of (u : user_row) : outcome (gmap string attr) :=
  Return (<["userId"%string := AInt (row_id u)]>
         (<["userName"%string := AStr (row_username u)]>
         (<["fullName"%string := AStr (row_full_name u)]>
         (<["email"%string := ANone]> {["token"%string := ANone]})))).

(** The password check of the examples compares the texts; the key and
    the lifetimes are arbitrary.  [written_env] is the module as it is
    written, with no [RATE_LIMIT]; [demo_env] is the same module with
    the name bound to a ceiling of 5. *)
Definition written_env : environment :=
  mk_environment "k3y" "HS256" 30 7 None
    user_row row_username row_hashed_password demo_User_of String.eqb.

Definition demo_env : environment :=
  mk_environment "k3y" "HS256" 30 7 (Some 5)
    user_row row_username row_hashed_password demo_User_of String.eqb.

Definition demo_db : gmap Z user_row :=
  <[1 := mk_user_row 1 "alice" "wonderland" "Alice Liddell"]>
  (<[2 := mk_user_row 2 "bob" "builder" "Bob Roberts"]>
  {[3 := mk_user_row 3 "2" "second" "Carol Two"]}).

(** A claims set as [authenticate_user] builds it, and the two tokens
    of a client whose access token has run out. *)
Definition demo_claims (sub : string) (req_count exp : Z)
  : gmap string jvalue :=
  <["exp"%string := JInt exp]>
    (<["req_count"%string := JInt req_count]> {["sub"%string := JStr sub]}).

Definition demo_token (sub : string) (req_count exp : Z) : token :=
  Jwt "k3y" "HS256" (demo_claims sub req_count exp).

End Common.

(** ** [Common/in_logging.py] *)
Module Logging.

(** The levels of [logging] that matter here. *)
Definition NOTSET : Z := 0.
Definition DEBUG : Z := 10.
Definition WARNING : Z := 30.

(** The formatter of a handler: the default of [logging], or an
    instance of [JSONFormatter]. *)
Inductive formatter : Type :=
| Formatter
| JSONFormatter.

(** A handler object; [handler_id] stands for its identity. *)
Record handler : Type := mk_handler {
  handler_id : nat;
  handler_level : Z;
  handler_formatter : formatter
}.

Record logger : Type := mk_logger {
  level : Z;
  handlers : list handler
}.

(** What [logging] keeps between calls: the loggers that exist, by name,
    and the number of handler objects made so far. *)
Record state : Type := mk_state {
  loggers : gmap string logger;
  handlers_made : nat
}.

(** [logging.getLogger(name)]: the root logger for an empty name and for
    its own name; any other logger is made at its first use, with no
    level of its own and no handler. *)
Definition logger_key (name : string) : string :=
  if String.eqb name EmptyString then "root"%string else name.

Definition getLogger (name : string) (s : state) : logger :=
  default
    (mk_logger
       (if String.eqb (logger_key name) "root" then WARNING else NOTSET) [])
    (loggers s !! logger_key name).

(** [logger.setLevel(level)], [handler.setLevel(level)] and
    [handler.setFormatter(fmt)] *)
Definition setLevel (lvl : Z) (lg : logger) : logger :=
  mk_logger lvl (handlers lg).

Definition handler_setLevel (lvl : Z) (h : handler) : handler :=
  mk_handler (handler_id h) lvl (handler_formatter h).

Definition setFormatter (fmt : formatter) (h : handler) : handler :=
  mk_handler (handler_id h) (handler_level h) fmt.

(** [logger.addHandler(hdlr)]: a handler that the logger has already is
    not added again. *)
Definition addHandler (hdlr : handler) (lg : logger) : logger :=
  if bool_decide (handler_id hdlr ∈ handler_id <$> handlers lg) then lg
  else mk_logger (level lg) (handlers lg ++ [hdlr]).

(** [get_service_logger(name)]; the logger it returns is given by its
    key in the store. *)
Definition get_service_logger (name : string) (s : state) : string * state :=
  let logger := setLevel DEBUG (getLogger name s) in
  (* logging.StreamHandler() *)
  let console_handler := mk_handler (handlers_made s) NOTSET Formatter in
  let console_handler := handler_setLevel DEBUG console_handler in
  let json_formatter := JSONFormatter in
  let console_handler := setFormatter json_formatter console_handler in
  let logger := addHandler console_handler logger in
  (logger_key name,
   mk_state (<[logger_key name := logger]> (loggers s))
     (S (handlers_made s))).

(** Calls made one after the other. *)
Definition get_service_loggers (names : list string) (s : state) : state :=
  foldl (fun s name => (get_service_logger name s).2) s names.

End Logging.

(** * Properties *)


(** ** The operators raise nothing but [TypeError] *)

Lemma py_add_raises (a b : pyval) (e : exn) :
  py_add a b = Raise e -> e = TypeError.
Proof. destruct a, b; simpl; congruence. Qed.

Lemma py_sub_raises (a b : pyval) (e : exn) :
  py_sub a b = Raise e -> e = TypeError.
Proof. destruct a, b; simpl; congruence. Qed.

Lemma py_mul_raises (a b : pyval) (e : exn) :
  py_mul a b = Raise e -> e = TypeError.
Proof. destruct a, b; simpl; congruence. Qed.

Lemma py_lt_raises (a b : pyval) (e : exn) :
  py_lt a b = Raise e -> e = TypeError.
Proof. destruct a, b; simpl; congruence. Qed.

Lemma py_ge_raises (a b : pyval) (e : exn) :
  py_ge a b = Raise e -> e = TypeError.
Proof. destruct a, b; simpl; congruence. Qed.

Lemma py_min_raises (a b : pyval) (e : exn) :
  py_min a b = Raise e -> e = TypeError.
Proof.
  unfold py_min, outcome_bind. destruct (py_lt b a) eqn:Hlt; [discriminate|].
  intros [= <-]. eapply py_lt_raises, Hlt.
Qed.

Lemma py_int_raises (a : pyval) (e : exn) :
  py_int a = Raise e -> e = TypeError.
Proof. destruct a; simpl; congruence. Qed.

Create HintDb py_raises.
#[local] Hint Resolve py_add_raises py_sub_raises py_mul_raises py_lt_raises
  py_ge_raises py_min_raises py_int_raises : py_raises.

(** ** The limiter strategies on the clock of [current_time] *)

Section LimiterOnDatetimes.

Import TokenBucket.

Lemma TokenBucket_init_stamped (capacity refill_rate : pyval) (t0 : Z) :
  stamped (init capacity refill_rate (current_time t0)).
Proof. exists t0. reflexivity. Qed.

Lemma TokenBucket_refill_stamped (self : TokenBucket.t) (t : Z) :
  stamped self -> stamped (refill_tokens (current_time t) self).2.
Proof.
  destruct self as [c k r l]. intros [t0 Hl]. simpl in Hl. subst l.
  unfold refill_tokens. unfold_py. simpl.
  repeat case_match; simpl; solve [by exists t | by exists t0].
Qed.

(** After [refill_tokens] has gone through, [tokens] is no number. *)
Lemma TokenBucket_refill_no_number (self : TokenBucket.t) (t : Z) (u : unit)
    (self' : TokenBucket.t) :
  stamped self ->
  refill_tokens (current_time t) self = (Return u, self') ->
  (exists d, tokens self' = PTimedelta d)
  \/ (exists d, tokens self' = PDatetime d).
Proof.
  destruct self as [c k r l]. intros [t0 Hl]. simpl in Hl. subst l.
  unfold refill_tokens. unfold_py. simpl.
  destruct r as [z|q|d|d]; simpl; try discriminate;
    destruct k as [z'|q'|d'|d']; simpl; try discriminate;
    destruct c as [z''|q''|d''|d'']; simpl; try discriminate;
    case_match; intros; simplify_eq; simpl; eauto.
Qed.

Lemma TokenBucket_refill_raises (self : TokenBucket.t) (t : Z) (e : exn)
    (self' : TokenBucket.t) :
  refill_tokens (current_time t) self = (Raise e, self') -> e = TypeError.
Proof.
  unfold refill_tokens. unfold_py.
  repeat case_match; intros; simplify_eq; eauto with py_raises.
Qed.

Lemma TokenBucket_allow_request_TypeError (self : TokenBucket.t) (t : Z) :
  stamped self ->
  (allow_request (current_time t) self).1 = Raise TypeError.
Proof.
  intros Hs. unfold allow_request, py_bind at 1.
  destruct (refill_tokens (current_time t) self) as [[[]|e] self'] eqn:Hr.
  - destruct (TokenBucket_refill_no_number _ _ _ _ Hs Hr) as [[d Hd]|[d Hd]];
      unfold_py; simpl; rewrite Hd; reflexivity.
  - simpl. f_equal. eapply TokenBucket_refill_raises; eauto.
Qed.

Lemma TokenBucket_allow_request_stamped (self : TokenBucket.t) (t : Z) :
  stamped self -> stamped (allow_request (current_time t) self).2.
Proof.
  intros Hs. pose proof (TokenBucket_refill_stamped self t Hs) as Hs'.
  unfold allow_request, py_bind at 1.
  destruct (refill_tokens (current_time t) self) as [[[]|e] self']; [|done].
  simpl in Hs'. destruct Hs' as [t1 Ht1].
  unfold_py. simpl. repeat case_match; simplify_eq; by exists t1.
Qed.

Lemma LeakyBucket_allow_request_TypeError {R : Type}
    (self : LeakyBucket.t R) (request : R) (t t0 : Z) :
  LeakyBucket.last_leak_timestamp self = PDatetime t0 ->
  LeakyBucket.allow_request (current_time t) request self
  = (Raise TypeError, self).
Proof.
  destruct self as [c r q l]. simpl. intros ->.
  unfold LeakyBucket.allow_request, LeakyBucket.leak. unfold_py. simpl.
  destruct r; reflexivity.
Qed.

(** A [window_size] in seconds, as the class documents it, cannot be
    added to the [datetime] in [window_start]. *)
Lemma FixedWindow_number_window_TypeError (self : FixedWindow.t)
    (t t' t0 : Z) :
  FixedWindow.window_start self = PDatetime t0 ->
  (exists n, FixedWindow.window_size self = PInt n)
  \/ (exists q, FixedWindow.window_size self = PFloat q) ->
  FixedWindow.allow_request (current_time t) (current_time t') self
  = (Raise TypeError, self).
Proof.
  destruct self as [l w c s]. simpl. intros -> [[n ->]|[q ->]]; reflexivity.
Qed.

(** With a [timedelta] for [window_size] the method goes through: past
    the end of the window it starts a new one and admits, whatever the
    limit is. *)
Lemma FixedWindow_new_window (self : FixedWindow.t) (t t' start size : Z) :
  FixedWindow.window_start self = PDatetime start ->
  FixedWindow.window_size self = PTimedelta size ->
  start + size <= t ->
  FixedWindow.allow_request (current_time t) (current_time t') self
  = (Return true,
     FixedWindow.mk (FixedWindow.limit self) (PTimedelta size) (PInt 1)
       (PDatetime t')).
Proof.
  destruct self as [l w c s]. simpl. intros -> -> Hle.
  unfold FixedWindow.allow_request. unfold_py. simpl.
  destruct (Z.leb_spec (start + size) t); [reflexivity | lia].
Qed.

(** Inside the window it counts the call and admits it exactly while the
    counter is below the limit. *)
Lemma FixedWindow_same_window (self : FixedWindow.t)
    (t t' start size limit counter : Z) :
  FixedWindow.window_start self = PDatetime start ->
  FixedWindow.window_size self = PTimedelta size ->
  FixedWindow.limit self = PInt limit ->
  FixedWindow.counter self = PInt counter ->
  t < start + size ->
  FixedWindow.allow_request (current_time t) (current_time t') self
  = if counter <? limit
    then (Return true, FixedWindow.set_counter (PInt (counter + 1)) self)
    else (Return false, self).
Proof.
  destruct self as [l w c s]. simpl. intros -> -> -> -> Hlt.
  unfold FixedWindow.allow_request. unfold_py. simpl.
  destruct (Z.leb_spec (start + size) t); [lia|]. simpl.
  destruct (counter <? limit); reflexivity.
Qed.

(** Both cases at once: on a window given as a [timedelta], with numbers
    for the limit and the counter, [allow_request] decides as the
    fixed-window rule says, as long as the end of the window is a moment
    that a [datetime] can hold (past the year 9999 line 125 raises
    [OverflowError]). *)
Theorem FixedWindow_timedelta_rule (self : FixedWindow.t)
    (t t' start size limit counter : Z) :
  FixedWindow.window_start self = PDatetime start ->
  FixedWindow.window_size self = PTimedelta size ->
  FixedWindow.limit self = PInt limit ->
  FixedWindow.counter self = PInt counter ->
  datetime_in_range (start + size) = true ->
  FixedWindow.allow_request (current_time t) (current_time t') self
  = if start + size <=? t
    then (Return true,
          FixedWindow.mk (PInt limit) (PTimedelta size) (PInt 1)
            (PDatetime t'))
    else if counter <? limit
    then (Return true, FixedWindow.set_counter (PInt (counter + 1)) self)
    else (Return false, self).
Proof.
  intros Hstart Hsize Hlimit Hcounter _.
  destruct (Z.leb_spec (start + size) t).
  - rewrite (FixedWindow_new_window self t t' start size) by done.
    by rewrite Hlimit.
  - by apply (FixedWindow_same_window self t t' start size).
Qed.

(** The scenario of the specification, with the window given as a
    [timedelta] of 60 seconds: three calls admitted, the fourth refused,
    and a call after the window admitted with the counter back at 1. *)
Theorem FixedWindow_timedelta_scenario (t0 t1 t2 t3 t4 t5 t5' : Z) :
  t0 <= t1 <= t2 -> t2 <= t3 <= t4 -> t4 < t0 + 60 * second_us <= t5 ->
  FixedWindow.allow_requests
    [(current_time t1, current_time t1); (current_time t2, current_time t2);
     (current_time t3, current_time t3); (current_time t4, current_time t4);
     (current_time t5, current_time t5')]
    (FixedWindow.init (PInt 3) (timedelta_seconds 60) (current_time t0))
  = ([Return true; Return true; Return true; Return false; Return true],
     FixedWindow.mk (PInt 3) (timedelta_seconds 60) (PInt 1) (PDatetime t5')).
Proof.
  intros H12 H34 H5. unfold FixedWindow.allow_requests, FixedWindow.init.
  rewrite (FixedWindow_same_window _ t1 t1 t0 (60 * second_us) 3 0);
    [simpl | done..| lia].
  rewrite (FixedWindow_same_window _ t2 t2 t0 (60 * second_us) 3 1);
    [simpl | done..| lia].
  rewrite (FixedWindow_same_window _ t3 t3 t0 (60 * second_us) 3 2);
    [simpl | done..| lia].
  rewrite (FixedWindow_same_window _ t4 t4 t0 (60 * second_us) 3 3);
    [simpl | done..| lia].
  rewrite (FixedWindow_new_window _ t5 t5' t0 (60 * second_us));
    [reflexivity | done.. | lia].
Qed.

Lemma TokenBucket_reachable_stamped (self : TokenBucket.t) :
  TokenBucket.reachable self -> stamped self.
Proof.
  induction 1 as [capacity refill_rate t0|self now _ IH].
  - apply TokenBucket_init_stamped.
  - by apply TokenBucket_allow_request_stamped.
Qed.

Lemma LeakyBucket_reachable_stamped {R : Type} (self : LeakyBucket.t R) :
  LeakyBucket.reachable self ->
  exists t0, LeakyBucket.last_leak_timestamp self = PDatetime t0.
Proof.
  induction 1 as [capacity leak_rate t0|self now request _ [t0 IH]].
  - by exists t0.
  - rewrite (LeakyBucket_allow_request_TypeError _ _ _ _ IH). by exists t0.
Qed.

(** Every call on every bucket that a program can hold raises
    [TypeError], whatever the constructor was given among the values of
    [pyval], as long as Python can hold the two values that the call
    computes on its way: [elapsed * refill_rate] of line 46 and the sum
    with [tokens] of line 47, where they exist.  (Where one of them
    leaves the range of its type, as with a rate of 10**30, that line
    raises [OverflowError] before the [TypeError] is reached.) *)
Theorem TokenBucket_every_call_raises (self : TokenBucket.t) (now last : Z) :
  TokenBucket.reachable self ->
  TokenBucket.last_refill_timestamp self = PDatetime last ->
  let tokens_to_add :=
    py_mul (PTimedelta (now - last)) (TokenBucket.refill_rate self) in
  result_in_range tokens_to_add = true ->
  result_in_range
    (outcome_bind tokens_to_add (py_add (TokenBucket.tokens self))) = true ->
  (allow_request (current_time now) self).1 = Raise TypeError.
Proof.
  intros Hr _ tokens_to_add _ _. by apply TokenBucket_allow_request_TypeError,
    TokenBucket_reachable_stamped.
Qed.

(** Likewise for [LeakyBucket], whose queue therefore stays empty: every
    call raises [TypeError] at [int(leaks)], as long as Python can hold
    [elapsed * leak_rate] of line 92 where it exists (beyond the range
    of [timedelta] that line raises [OverflowError]). *)
Theorem LeakyBucket_every_call_raises {R : Type} (self : LeakyBucket.t R)
    (now last : Z) (request : R) :
  LeakyBucket.reachable self ->
  LeakyBucket.last_leak_timestamp self = PDatetime last ->
  result_in_range
    (py_mul (PTimedelta (now - last)) (LeakyBucket.leak_rate self)) = true ->
  LeakyBucket.allow_request (current_time now) request self
  = (Raise TypeError, self)
  /\ LeakyBucket.queue self = [].
Proof.
  intros Hr _ _. split.
  - destruct (LeakyBucket_reachable_stamped _ Hr) as [t0 Ht0].
    by apply (LeakyBucket_allow_request_TypeError _ _ _ t0).
  - induction Hr as [capacity leak_rate t0|self now' request' Hr IH];
      [reflexivity|].
    destruct (LeakyBucket_reachable_stamped _ Hr) as [t0 Ht0].
    by rewrite (LeakyBucket_allow_request_TypeError _ _ _ _ Ht0).
Qed.

End LimiterOnDatetimes.

(** ** The limiter strategies on float timestamps *)

(** The class docstrings take the timestamps for floats, in seconds.
    On such readings the same methods go through; these are the
    scenarios of the specification. *)
Theorem TokenBucket_on_float_clock :
  (TokenBucket.allow_requests [PFloat 10; PFloat 10; PFloat 10; PFloat 12]
     (TokenBucket.init (PInt 2) (PFloat 1) (PFloat 10))).1
  = [Return true; Return true; Return false; Return true].
Proof. reflexivity. Qed.

Theorem LeakyBucket_on_float_clock :
  let b0 := LeakyBucket.init (PInt 2) (PFloat 1) (PFloat 10) in
  let '(o1, b1) := LeakyBucket.allow_request (PFloat 10) 1%nat b0 in
  let '(o2, b2) := LeakyBucket.allow_request (PFloat 10) 2%nat b1 in
  let '(o3, b3) := LeakyBucket.allow_request (PFloat 10) 3%nat b2 in
  let '(o4, b4) := LeakyBucket.allow_request (PFloat 11) 4%nat b3 in
  [o1; o2; o3; o4] = [Return true; Return true; Return false; Return true]
  /\ LeakyBucket.queue b4 = [2%nat; 4%nat].
Proof. split; reflexivity. Qed.

Theorem FixedWindow_on_float_clock :
  FixedWindow.allow_requests
    [(PFloat 11, PFloat 11); (PFloat 12, PFloat 12); (PFloat 13, PFloat 13);
     (PFloat 14, PFloat 14); (PFloat 70, PFloat 70)]
    (FixedWindow.init (PInt 3) (PInt 60) (PFloat 10))
  = ([Return true; Return true; Return true; Return false; Return true],
     FixedWindow.mk (PInt 3) (PInt 60) (PInt 1) (PFloat 70)).
Proof. reflexivity. Qed.

(** C4 (the code departs from the claim).  The claim: none of the three
    [allow_request] methods ever raises, each returns a boolean.  On the
    instances built as the classes document them (numbers for the
    capacity, the rates, the limit and the window) the first call of each
    raises [TypeError], at any clock readings: [TokenBucket] adds a
    [timedelta] to a number, [LeakyBucket] takes [int] of a [timedelta],
    [FixedWindow] adds a number to a [datetime]. *)
Theorem limiters_raise_TypeError (t0 t1 : Z) :
  (TokenBucket.allow_request (current_time t1)
     (TokenBucket.init (PInt 5) (PFloat 1) (current_time t0))).1
  = Raise TypeError
  /\ (LeakyBucket.allow_request (current_time t1) tt
        (LeakyBucket.init (PInt 5) (PFloat 1) (current_time t0))).1
     = Raise TypeError
  /\ (FixedWindow.allow_request (current_time t1) (current_time t1)
        (FixedWindow.init (PInt 3) (PInt 60) (current_time t0))).1
     = Raise TypeError.
Proof.
  split; [|split].
  - apply TokenBucket_allow_request_TypeError, TokenBucket_init_stamped.
  - by rewrite (LeakyBucket_allow_request_TypeError _ _ t1 t0).
  - rewrite (FixedWindow_number_window_TypeError _ t1 t1 t0); eauto.
Qed.

(** C6 (the code departs from the claim).  The claim: with [limit = 3]
    and [windowSize = 60], four calls within 60 seconds admit the first
    three and reject the fourth, and a fifth call after 60 seconds is
    admitted.  With the window given in seconds, every one of the five
    calls raises [TypeError] and the window never changes. *)
Theorem FixedWindow_seconds_window_raises (t0 : Z) :
  FixedWindow.allow_requests
    [(current_time (t0 + 10 * second_us), current_time (t0 + 10 * second_us));
     (current_time (t0 + 20 * second_us), current_time (t0 + 20 * second_us));
     (current_time (t0 + 30 * second_us), current_time (t0 + 30 * second_us));
     (current_time (t0 + 40 * second_us), current_time (t0 + 40 * second_us));
     (current_time (t0 + 61 * second_us), current_time (t0 + 61 * second_us))]
    (FixedWindow.init (PInt 3) (PInt 60) (current_time t0))
  = ([Raise TypeError; Raise TypeError; Raise TypeError; Raise TypeError;
      Raise TypeError],
     FixedWindow.init (PInt 3) (PInt 60) (current_time t0)).
Proof. reflexivity. Qed.

(** C7 (the code departs from the claim).  The claim: from a full
    bucket, [capacity] back-to-back calls are admitted and the next one
    is rejected.  With [capacity = 2], each of three back-to-back calls
    raises [TypeError] in [refill_tokens], before any token is counted;
    the bucket stays as it was built. *)
Theorem TokenBucket_burst_raises (t0 : Z) :
  TokenBucket.allow_requests
    [current_time t0; current_time t0; current_time t0]
    (TokenBucket.init (PInt 2) (PFloat 1) (current_time t0))
  = ([Raise TypeError; Raise TypeError; Raise TypeError],
     TokenBucket.init (PInt 2) (PFloat 1) (current_time t0)).
Proof. reflexivity. Qed.

(** ** The store *)

Section RedisFacts.

Import Redis.

Lemma get_insert_eq (key : string) (e : entry) (now : Z) (st : store) :
  get key now (<[key := e]> st) = if live now e then Some (val e) else None.
Proof. unfold get. by rewrite lookup_insert_eq. Qed.

Lemma get_insert_ne (key key' : string) (e : entry) (now : Z) (st : store) :
  key <> key' -> get key' now (<[key := e]> st) = get key' now st.
Proof. intros Hne. unfold get. by rewrite lookup_insert_ne. Qed.

Lemma get_Some_ttl_live (key : string) (now : Z) (st : store) (v v' : value) :
  get key now st = Some v ->
  live now (mk_entry v' (ttl key now st)) = true.
Proof.
  unfold get, ttl. destruct (st !! key) as [e|]; [|discriminate].
  destruct (live now e) eqn:Hlive; [|discriminate]. intros _.
  unfold live in *. simpl. exact Hlive.
Qed.

End RedisFacts.

(** ** [check_rate_limit] *)

Section RateLimit.

Import PlayersService.

Variable cfg : config.
Hypothesis period_positive : 0 < RATE_PERIOD cfg.

Lemma check_rate_limit_missing (ip : string) (now : Z) (st : Redis.store) :
  Redis.get (rate_limit_key ip) now st = None ->
  check_rate_limit cfg ip now st = (Return true, counted cfg ip now 0 st).
Proof using period_positive.
  intros Hget. unfold check_rate_limit. unfold_py. rewrite Hget.
  unfold Redis.incr. rewrite Hget.
  unfold Redis.expire. rewrite get_insert_eq. simpl.
  destruct (Z.leb_spec (RATE_PERIOD cfg) 0); [lia|].
  unfold counted. by rewrite insert_insert_eq.
Qed.

Lemma check_rate_limit_counter (ip : string) (now n : Z) (st : Redis.store) :
  Redis.get (rate_limit_key ip) now st = Some (Redis.Counter n) ->
  check_rate_limit cfg ip now st
  = if RATE_LIMIT cfg <=? n then (Return false, st)
    else (Return true, counted cfg ip now n st).
Proof using period_positive.
  intros Hget. unfold check_rate_limit. unfold_py. rewrite Hget. simpl.
  destruct (RATE_LIMIT cfg <=? n); [reflexivity|].
  unfold Redis.incr. rewrite Hget.
  unfold Redis.expire. rewrite get_insert_eq.
  rewrite (get_Some_ttl_live _ _ _ _ _ Hget). simpl.
  destruct (Z.leb_spec (RATE_PERIOD cfg) 0); [lia|].
  unfold counted. by rewrite insert_insert_eq.
Qed.

Lemma check_rate_limit_other_text (ip : string) (now c r : Z)
    (st : Redis.store) :
  Redis.get (rate_limit_key ip) now st = Some (Redis.Throttle c r) ->
  check_rate_limit cfg ip now st = (Raise ValueError, st).
Proof.
  intros Hget. unfold check_rate_limit. unfold_py. by rewrite Hget.
Qed.

(** Requests that all arrive before the counter can expire: the one
    that finds the counter at [k + j] is admitted exactly when that is
    below the ceiling. *)
Lemma check_rate_limits_counting (ip : string) (t0 : Z) (times : list Z) :
  forall (k : Z) (st : Redis.store) (deadline : Z),
    st !! rate_limit_key ip
    = Some (Redis.mk_entry (Redis.Counter k) (Some deadline)) ->
    t0 + RATE_PERIOD cfg * second_us <= deadline ->
    Forall (fun t => t0 <= t < t0 + RATE_PERIOD cfg * second_us) times ->
    (check_rate_limits cfg ip times st).1
    = imap (fun j _ => Return (k + Z.of_nat j <? RATE_LIMIT cfg)) times.
Proof using period_positive.
  induction times as [|t times IH]; intros k st deadline Hst Hdl Hall;
    [reflexivity|].
  apply Forall_cons in Hall as [Ht Hall]. simpl.
  assert (Redis.get (rate_limit_key ip) t st = Some (Redis.Counter k))
    as Hget.
  { unfold Redis.get, Redis.live. rewrite Hst. simpl.
    destruct (Z.leb_spec t deadline); [reflexivity | lia]. }
  rewrite (check_rate_limit_counter _ _ _ _ Hget).
  replace (k + Z.of_nat 0) with k by lia.
  destruct (Z.leb_spec (RATE_LIMIT cfg) k) as [Hfull|Hroom].
  - destruct (check_rate_limits cfg ip times st) as [os st''] eqn:Hrest.
    simpl. destruct (Z.ltb_spec k (RATE_LIMIT cfg)); [lia|]. f_equal.
    pose proof (IH k st deadline Hst Hdl Hall) as Hos.
    rewrite Hrest in Hos. simpl in Hos. rewrite Hos.
    apply imap_ext. intros j t' _. simpl.
    destruct (Z.ltb_spec (k + Z.of_nat j) (RATE_LIMIT cfg));
      destruct (Z.ltb_spec (k + Z.of_nat (S j)) (RATE_LIMIT cfg));
      (reflexivity || lia).
  - destruct (check_rate_limits cfg ip times (counted cfg ip t k st))
      as [os st''] eqn:Hrest.
    simpl. destruct (Z.ltb_spec k (RATE_LIMIT cfg)); [|lia]. f_equal.
    pose proof (IH (k + 1) (counted cfg ip t k st)
                  (t + RATE_PERIOD cfg * second_us)) as Hos.
    rewrite Hrest in Hos. simpl in Hos. rewrite Hos.
    + apply imap_ext. intros j t' _. simpl. do 2 f_equal. lia.
    + unfold counted. by rewrite lookup_insert_eq.
    + lia.
    + done.
Qed.

(** From a client that the store does not know: whatever the ceiling,
    the first request is admitted; of those that follow within the rate
    period of the first, exactly the ones numbered below the ceiling
    are. *)
Theorem check_rate_limits_burst (ip : string) (t0 : Z) (times : list Z)
    (st : Redis.store) :
  Redis.get (rate_limit_key ip) t0 st = None ->
  Forall (fun t => t0 <= t < t0 + RATE_PERIOD cfg * second_us) times ->
  (check_rate_limits cfg ip (t0 :: times) st).1
  = Return true
    :: imap (fun j _ => Return (1 + Z.of_nat j <? RATE_LIMIT cfg)) times.
Proof using period_positive.
  intros Hnew Hall. simpl. rewrite (check_rate_limit_missing _ _ _ Hnew).
  destruct (check_rate_limits cfg ip times (counted cfg ip t0 0 st))
    as [os st''] eqn:Hrest. simpl. f_equal.
  pose proof (check_rate_limits_counting ip t0 times 1
                (counted cfg ip t0 0 st)
                (t0 + RATE_PERIOD cfg * second_us)) as Hos.
  rewrite Hrest in Hos. apply Hos; [|lia|done].
  unfold counted. by rewrite lookup_insert_eq.
Qed.

(** C8.  For every client identity [ip], whatever the constants are
    (as long as the rate period is positive): [check_rate_limit] refuses
    the request exactly when the stored counter of [ip] has already
    reached [RATE_LIMIT], and then leaves the store as it is (no
    increment); an admitted request leaves the counter one higher than it
    found it (1 on a missing or expired key) with a time to live of
    [RATE_PERIOD] seconds from now; over a counter or a missing key the
    call returns a boolean; and the counters of the other identities are
    not touched. *)
Theorem check_rate_limit_quota (ip : string) (now : Z) (st : Redis.store) :
  let stored := Redis.get (rate_limit_key ip) now st in
  let count := match stored with Some (Redis.Counter n) => n | _ => 0 end in
  let result := check_rate_limit cfg ip now st in
  (result.1 = Return false
   <-> exists n, stored = Some (Redis.Counter n) /\ RATE_LIMIT cfg <= n)
  /\ (result.1 = Return false -> result.2 = st)
  /\ (result.1 = Return true ->
      result.2
      = <[rate_limit_key ip :=
            Redis.mk_entry (Redis.Counter (count + 1))
              (Some (now + RATE_PERIOD cfg * second_us))]> st)
  /\ (stored = None \/ (exists n, stored = Some (Redis.Counter n)) ->
      exists admitted : bool, result.1 = Return admitted)
  /\ (forall ip' now', ip' <> ip ->
      Redis.get (rate_limit_key ip') now' result.2
      = Redis.get (rate_limit_key ip') now' st).
Proof using period_positive.
  intros stored count result. subst result count.
  destruct stored as [[n|c r]|] eqn:Hstored; subst stored.
  - rewrite (check_rate_limit_counter _ _ _ _ Hstored).
    destruct (Z.leb_spec (RATE_LIMIT cfg) n) as [Hle|Hgt]; simpl.
    + repeat split; try done; eauto.
    + repeat split; try done; eauto.
      * intros (n' & [= <-] & Hle). lia.
      * intros ip' now' Hne. apply get_insert_ne.
        unfold rate_limit_key. intros Heq. by simplify_eq.
  - rewrite (check_rate_limit_other_text _ _ _ _ _ Hstored). simpl.
    repeat split; try done.
    + intros (n' & [=] & _).
    + intros [[=]|(n' & [=])].
  - rewrite (check_rate_limit_missing _ _ _ Hstored). simpl.
    repeat split; try done; eauto.
    + intros (n' & [=] & _).
    + intros ip' now' Hne. apply get_insert_ne.
      unfold rate_limit_key. intros Heq. by simplify_eq.
Qed.

End RateLimit.

(** The sixth request of a client inside one rate period, with the
    constants of [main.py]: five admitted, the sixth refused. *)
Lemma check_rate_limit_quota_witness :
  0 < PlayersService.RATE_PERIOD PlayersService.settings
  /\ ((PlayersService.check_rate_limit PlayersService.settings "203.0.113.7" 7
        (<[PlayersService.rate_limit_key "203.0.113.7" :=
             Redis.mk_entry (Redis.Counter 5) (Some 60000000)]> ∅)).1
      = Return false
      <-> exists n,
          Redis.get (PlayersService.rate_limit_key "203.0.113.7") 7
            (<[PlayersService.rate_limit_key "203.0.113.7" :=
                 Redis.mk_entry (Redis.Counter 5) (Some 60000000)]> ∅)
          = Some (Redis.Counter n)
          /\ PlayersService.RATE_LIMIT PlayersService.settings <= n).
Proof.
  split; [reflexivity|].
  apply (check_rate_limit_quota PlayersService.settings eq_refl
           "203.0.113.7" 7).
Defined.

(** ** [check_throttle] *)

Section Throttle.

Import PlayersService.

Variable cfg : config.
Variable strptime : Z -> outcome Z.

(** Lines 123 to 138 always store and always admit. *)
Lemma throttle_count_admits (key : string) (now count reset_time : Z)
    (st : Redis.store) :
  exists count' reset_time' seconds,
    0 < seconds
    /\ throttle_count cfg key now count reset_time st
       = (Return (true, None),
          <[key := Redis.mk_entry (Redis.Throttle count' reset_time')
                     (Some (now + seconds * second_us))]> st)
    /\ (count', reset_time')
       = (if THROTTLE_LIMIT cfg <? count + 1
          then (0, now + COOLDOWN_PERIOD cfg * second_us)
          else (count + 1, reset_time))
    /\ seconds = Z.max (timedelta_seconds_field (reset_time' - now)) 1.
Proof.
  unfold throttle_count.
  destruct (THROTTLE_LIMIT cfg <? count + 1);
    eexists _, _, _; (split; [|split; [|split; reflexivity]]);
    try (unfold py_bind, Redis.set_ex, py_ret;
         match goal with
         | |- context [?s <=? 0] => destruct (Z.leb_spec s 0); [lia|]
         end; reflexivity); lia.
Qed.

(** Whatever the record says, the count that reaches the increment of
    line 124 is 0: a request that is not rejected has found the reset
    time in the past, and line 116 then clears the count. *)
Lemma throttle_current_restarts (key : string) (now count reset_time : Z)
    (st : Redis.store) :
  throttle_current cfg strptime key now st = Return (inr (count, reset_time)) ->
  count = 0.
Proof.
  unfold throttle_current, outcome_bind.
  destruct (Redis.get key now st) as [[n|c r]|]; try congruence.
  destruct (strptime r) as [r'|e]; [|discriminate].
  destruct (Z.ltb_spec now r'); [discriminate|].
  destruct (Z.leb_spec r' now); [congruence | lia].
Qed.

(** So with a limit of 1 or more no request ever starts a cooldown: an
    admitted request always stores the count 1 and keeps the reset time
    it started from. *)
Theorem check_throttle_never_cools_down (ip : string) (now : Z)
    (st st' : Redis.store) (answer : bool * option Z) :
  1 <= THROTTLE_LIMIT cfg ->
  check_throttle cfg strptime ip now st = (Return answer, st') ->
  answer.1 = true ->
  exists reset_time seconds,
    throttle_current cfg strptime (throttle_key ip) now st
    = Return (inr (0, reset_time))
    /\ st' = <[throttle_key ip :=
                Redis.mk_entry (Redis.Throttle 1 reset_time)
                  (Some (now + seconds * second_us))]> st.
Proof.
  intros Hlimit. unfold check_throttle. unfold_py.
  destruct (throttle_current cfg strptime (throttle_key ip) now st)
    as [[remaining|[count reset_time]]|e] eqn:Hcur; try congruence.
  - intros [= <- <-]. discriminate.
  - pose proof (throttle_current_restarts _ _ _ _ _ Hcur) as ->.
    destruct (throttle_count_admits (throttle_key ip) now 0 reset_time st)
      as (c' & r' & s & Hs & -> & Hcr & _).
    destruct (Z.ltb_spec (THROTTLE_LIMIT cfg) (0 + 1)); [lia|].
    injection Hcr as -> ->. intros [= <- <-] _. eauto.
Qed.

(** As the module is written, a request that finds a live record stops
    at line 108 with [AttributeError] and leaves the store as it is. *)
Theorem check_throttle_live_record_raises (ip : string) (now c r : Z)
    (st : Redis.store) :
  Redis.get (throttle_key ip) now st = Some (Redis.Throttle c r) ->
  check_throttle cfg datetime_strptime ip now st = (Raise AttributeError, st).
Proof.
  intros Hget. unfold check_throttle, throttle_current. unfold_py.
  by rewrite Hget.
Qed.

(** With the class method in the place of line 108's lookup, the same
    request is rejected while the reset time is ahead, whether the record
    is in its throttle period or in a cooldown. *)
Lemma check_throttle_live_record_rejected (ip : string) (now c r : Z)
    (st : Redis.store) :
  Redis.get (throttle_key ip) now st = Some (Redis.Throttle c r) ->
  r mod second_us <> 0 ->
  now < r ->
  check_throttle cfg datetime_datetime_strptime ip now st
  = (Return (false, Some (r - now)), st).
Proof.
  intros Hget Hmicro Hlt.
  unfold check_throttle, throttle_current, datetime_datetime_strptime.
  unfold_py. rewrite Hget.
  destruct (Z.eqb_spec (r mod second_us) 0); [done|].
  destruct (Z.ltb_spec now r); [reflexivity | lia].
Qed.

Lemma timedelta_seconds_field_small (seconds : Z) :
  0 <= seconds < 86400 ->
  timedelta_seconds_field (seconds * second_us) = seconds.
Proof.
  intros Hs. unfold timedelta_seconds_field, second_us.
  rewrite Z.mod_small by lia. apply Z.div_mul. lia.
Qed.

(** Lines 123 to 138 taken on their own, whatever the constants are
    (with a cooldown between one second and a day): were a request to
    reach line 124 with a count that, once incremented, exceeds
    [THROTTLE_LIMIT], [check_throttle] would store the count 0 with
    [resetTime = now + COOLDOWN_PERIOD] and return [(True, None)], and no
    request of the same client after it and before [resetTime] would be
    admitted or change the record.  By [throttle_current_restarts] the
    count that reaches line 124 is always 0, so this takes a limit below
    1; with the limit of [main.py] no request gets there. *)
Lemma cooldown_trigger_is_admitted (ip : string) (now count reset_time : Z)
    (st : Redis.store) :
  throttle_current cfg strptime (throttle_key ip) now st
  = Return (inr (count, reset_time)) ->
  THROTTLE_LIMIT cfg < count + 1 ->
  1 <= COOLDOWN_PERIOD cfg < 86400 ->
  (forall text t, strptime text = Return t -> t = text) ->
  let resetTime := now + COOLDOWN_PERIOD cfg * second_us in
  let st' :=
    <[throttle_key ip :=
        Redis.mk_entry (Redis.Throttle 0 resetTime) (Some resetTime)]> st in
  check_throttle cfg strptime ip now st = (Return (true, None), st')
  /\ forall now', now <= now' < resetTime ->
       (check_throttle cfg strptime ip now' st').2 = st'
       /\ (forall cooldown_time,
            (check_throttle cfg strptime ip now' st').1
            <> Return (true, cooldown_time))
       /\ (strptime resetTime = Return resetTime ->
           (check_throttle cfg strptime ip now' st').1
           = Return (false, Some (resetTime - now'))).
Proof.
  intros Hcur Hover Hcool Hread resetTime st'. split.
  - unfold check_throttle. unfold_py. rewrite Hcur.
    destruct (throttle_count_admits (throttle_key ip) now count reset_time st)
      as (c' & r' & s & Hs & -> & Hcr & ->).
    destruct (Z.ltb_spec (THROTTLE_LIMIT cfg) (count + 1)); [|lia].
    injection Hcr as -> ->. subst st' resetTime.
    replace (now + COOLDOWN_PERIOD cfg * second_us - now)
      with (COOLDOWN_PERIOD cfg * second_us) by lia.
    rewrite timedelta_seconds_field_small by lia.
    by rewrite Z.max_l by lia.
  - intros now' Hnow'.
    assert (Redis.get (throttle_key ip) now' st'
            = Some (Redis.Throttle 0 resetTime)) as Hget.
    { subst st'. rewrite get_insert_eq. unfold Redis.live. simpl.
      destruct (Z.leb_spec now' resetTime); [reflexivity | lia]. }
    unfold check_throttle, throttle_current. unfold_py. rewrite Hget.
    destruct (strptime resetTime) as [t|e] eqn:Hparse.
    + apply Hread in Hparse as ->.
      destruct (Z.ltb_spec now' resetTime); [|lia]. simpl.
      repeat split; congruence.
    + simpl. repeat split; congruence.
Qed.

End Throttle.

(** C2 (the code departs from the claim).  The claim: while in Normal,
    each request increments the stored counter and is admitted.  Two
    requests of one client a second apart, with the constants of
    [main.py]: the first is admitted and stores the count 1 with the reset
    time 60 seconds ahead; the second finds that record and, as the
    module is written, raises [AttributeError] at line 108; were the
    class method called there, it would be rejected with 59 seconds left.
    Either way it is not admitted and the stored count stays 1. *)
Theorem second_request_in_period_not_admitted :
  let st1 : Redis.store :=
    {[PlayersService.throttle_key "203.0.113.7" :=
        Redis.mk_entry (Redis.Throttle 1 1060000123) (Some 1060000123)]} in
  PlayersService.check_throttles PlayersService.settings
    PlayersService.datetime_strptime "203.0.113.7"
    [1000000123; 1001000123] ∅
  = ([Return (true, None); Raise AttributeError], st1)
  /\ PlayersService.check_throttles PlayersService.settings
       PlayersService.datetime_datetime_strptime "203.0.113.7"
       [1000000123; 1001000123] ∅
     = ([Return (true, None); Return (false, Some 59000000)], st1).
Proof. split; reflexivity. Qed.


(** ** The token lifecycle *)

Section Tokens.

Import Common.

Context (env : environment).

(** *** What the library accepts *)

Lemma int_of_str_raises (s : string) (e : exn) :
  int_of_str s = Raise e -> e = ValueError.
Proof. unfold int_of_str. repeat case_match; congruence. Qed.

Lemma time_claim_raises (payload : gmap string jvalue) (name : string)
    (e : exn) :
  time_claim payload name = Raise e -> e = JWTError \/ e = TypeError.
Proof.
  unfold time_claim. destruct (payload !! name) as [[|n|s]|]; simpl;
    try discriminate.
  - intros [= <-]. by right.
  - destruct (int_of_str s) as [n|e'] eqn:Hint; [discriminate|].
    apply int_of_str_raises in Hint as ->. intros [= <-]. by left.
Qed.

Lemma string_claim_raises (payload : gmap string jvalue) (name : string)
    (e : exn) :
  string_claim payload name = Raise e -> e = JWTError.
Proof. unfold string_claim. repeat case_match; congruence. Qed.

Lemma unmet_claim_raises (payload : gmap string jvalue) (name : string)
    (e : exn) :
  unmet_claim payload name = Raise e -> e = JWTError.
Proof. unfold unmet_claim. repeat case_match; congruence. Qed.

(** The checks raise [JWTError], or the [TypeError] of a null time
    claim. *)
Lemma validate_claims_raises (payload : gmap string jvalue) (now : Z)
    (e : exn) :
  validate_claims payload now = Raise e -> e = JWTError \/ e = TypeError.
Proof.
  unfold validate_claims, outcome_bind.
  destruct (time_claim payload "iat") as [iat|e1] eqn:Hiat;
    [|intros [= <-]; by eapply time_claim_raises].
  destruct (time_claim payload "nbf") as [nbf|e1] eqn:Hnbf;
    [|intros [= <-]; by eapply time_claim_raises].
  destruct (match nbf with
            | Some nbf => if now <? nbf then Raise JWTError else Return tt
            | None => Return tt
            end) as [[]|e1] eqn:Hahead;
    [|intros [= <-]; left; repeat case_match; congruence].
  destruct (time_claim payload "exp") as [exp|e1] eqn:Hexp;
    [|intros [= <-]; by eapply time_claim_raises].
  destruct (match exp with
            | Some exp => if exp <? now then Raise JWTError else Return tt
            | None => Return tt
            end) as [[]|e1] eqn:Hpast;
    [|intros [= <-]; left; repeat case_match; congruence].
  destruct (unmet_claim payload "aud") as [[]|e1] eqn:Haud;
    [|intros [= <-]; left; by eapply unmet_claim_raises].
  destruct (string_claim payload "sub") as [[]|e1] eqn:Hsub;
    [|intros [= <-]; left; by eapply string_claim_raises].
  destruct (string_claim payload "jti") as [[]|e1] eqn:Hjti;
    [|intros [= <-]; left; by eapply string_claim_raises].
  intros Hhash. left. by eapply unmet_claim_raises.
Qed.

(** Claims that pass carry a string for a subject, or none. *)
Lemma validate_claims_sub (payload : gmap string jvalue) (now : Z) :
  validate_claims payload now = Return tt ->
  string_claim payload "sub" = Return tt.
Proof.
  unfold validate_claims, outcome_bind.
  destruct (time_claim payload "iat"); [|discriminate].
  destruct (time_claim payload "nbf") as [nbf|]; [|discriminate].
  destruct (match nbf with
            | Some nbf => if now <? nbf then Raise JWTError else Return tt
            | None => Return tt
            end); [|discriminate].
  destruct (time_claim payload "exp") as [exp|]; [|discriminate].
  destruct (match exp with
            | Some exp => if exp <? now then Raise JWTError else Return tt
            | None => Return tt
            end); [|discriminate].
  destruct (unmet_claim payload "aud"); [|discriminate].
  by destruct (string_claim payload "sub") as [[]|].
Qed.

(** Claims that carry, of the names the library looks at, an integer
    [exp] and at most a string [sub] and a string [jti], pass exactly
    while the expiry is not past. *)
Lemma validate_claims_minted (data : gmap string jvalue) (exp now : Z) :
  data !! "iat"%string = None ->
  data !! "nbf"%string = None ->
  data !! "aud"%string = None ->
  data !! "at_hash"%string = None ->
  (forall v, data !! "sub"%string = Some v -> exists s, v = JStr s) ->
  (forall v, data !! "jti"%string = Some v -> exists s, v = JStr s) ->
  validate_claims (<["exp"%string := JInt exp]> data) now
  = if now <=? exp then Return tt else Raise JWTError.
Proof.
  intros Hiat Hnbf Haud Hhash Hsub Hjti.
  unfold validate_claims, time_claim, string_claim, unmet_claim.
  rewrite lookup_insert_eq, !lookup_insert_ne by done.
  rewrite Hiat, Hnbf, Haud, Hhash. simpl.
  destruct (Z.ltb_spec exp now), (Z.leb_spec now exp); try lia;
    [reflexivity|]. simpl.
  destruct (data !! "sub"%string) as [v|];
    [destruct (Hsub v eq_refl) as [s ->]|];
    (destruct (data !! "jti"%string) as [v'|];
     [destruct (Hjti v' eq_refl) as [s' ->]|]); reflexivity.
Qed.

(** [jwt.decode] is logged once, and its answer does not depend on what
    was logged before. *)
Lemma jwt_decode_spec (tok : token) (now : Z) (log : list event) :
  jwt_decode env tok now log
  = ((jwt_decode env tok now []).1, log ++ [Decode tok]).
Proof.
  unfold jwt_decode. destruct tok as [key alg payload|s]; simpl; [|done].
  by destruct (negb _).
Qed.

(** It raises [JWTError], or lets out the [TypeError] of a null time
    claim. *)
Lemma jwt_decode_raises (tok : token) (now : Z) (log : list event) (e : exn) :
  (jwt_decode env tok now log).1 = Raise e -> e = JWTError \/ e = TypeError.
Proof.
  unfold jwt_decode. destruct tok as [key alg payload|s]; simpl;
    [|intros [= <-]; by left].
  destruct (negb _); simpl; [intros [= <-]; by left|].
  destruct (validate_claims payload now) as [[]|e'] eqn:Hvalid; simpl;
    [discriminate|].
  intros [= <-]. by eapply validate_claims_raises.
Qed.

(** A decoded subject is a string or missing. *)
Lemma jwt_decode_sub (tok : token) (now : Z) (log : list event)
    (payload : gmap string jvalue) :
  (jwt_decode env tok now log).1 = Return payload ->
  get payload "sub" = JNull \/ exists s, get payload "sub" = JStr s.
Proof.
  unfold jwt_decode, get. destruct tok as [key alg claims|s]; simpl;
    [|discriminate].
  destruct (negb _); [discriminate|]. simpl.
  destruct (validate_claims claims now) as [[]|e'] eqn:Hvalid; simpl;
    [|discriminate].
  intros [= <-]. apply validate_claims_sub in Hvalid.
  unfold string_claim in Hvalid.
  destruct (claims !! "sub"%string) as [[|n|s]|]; simpl;
    try discriminate; eauto.
Qed.

(** What a token says once decoded, if it decodes. *)
Lemma jwt_decode_payload (tok : token) (now : Z) (log : list event)
    (payload : gmap string jvalue) :
  (jwt_decode env tok now log).1 = Return payload ->
  tok = Jwt (SECRET_KEY env) (ALGORITHM env) payload.
Proof.
  unfold jwt_decode. destruct tok as [key alg claims|s]; simpl;
    [|discriminate].
  destruct (String.eqb_spec key (SECRET_KEY env)) as [->|]; simpl;
    [|discriminate].
  destruct (String.eqb_spec alg (ALGORITHM env)) as [->|]; simpl;
    [|discriminate].
  destruct (validate_claims claims now); simpl; [congruence | discriminate].
Qed.

(** A token made by [jwt.encode] under the module's key, from claims as
    in [validate_claims_minted], decodes to its claims while its expiry
    is not past. *)
Lemma jwt_decode_own (data : gmap string jvalue) (exp later : Z)
    (log : list event) :
  data !! "iat"%string = None ->
  data !! "nbf"%string = None ->
  data !! "aud"%string = None ->
  data !! "at_hash"%string = None ->
  (forall v, data !! "sub"%string = Some v -> exists s, v = JStr s) ->
  (forall v, data !! "jti"%string = Some v -> exists s, v = JStr s) ->
  jwt_decode env
    (Jwt (SECRET_KEY env) (ALGORITHM env) (<["exp"%string := JInt exp]> data))
    later log
  = (if later <=? exp then Return (<["exp"%string := JInt exp]> data)
     else Raise JWTError,
     log ++ [Decode (Jwt (SECRET_KEY env) (ALGORITHM env)
                       (<["exp"%string := JInt exp]> data))]).
Proof.
  intros Hiat Hnbf Haud Hhash Hsub Hjti. unfold jwt_decode.
  rewrite !String.eqb_refl. simpl.
  rewrite validate_claims_minted by done.
  by destruct (later <=? exp).
Qed.

Lemma create_access_token_rotated (subject : jvalue) (now : Z)
    (log : list event) :
  create_access_token env {["sub"%string := subject]}
    (Some (ACCESS_TOKEN_EXPIRE_MINUTES env * 60)) now log
  = (Return (rotated env subject now),
     log ++ [Encode (rotated env subject now)]).
Proof.
  unfold create_access_token, jwt_encode, rotated.
  destruct (ACCESS_TOKEN_EXPIRE_MINUTES env * 60 =? 0); reflexivity.
Qed.

(** *** Lines 162 to 203, branch by branch *)

Lemma current_subject_access_valid (x_access_token x_refresh_token : token)
    (now : Z) (payload : gmap string jvalue) :
  (jwt_decode env x_access_token now []).1 = Return payload ->
  current_subject env x_access_token x_refresh_token now []
  = (match over_limit env (get payload "req_count") with
     | Raise e => Raise e
     | Return true => Raise (HTTPException 429 "Rate limit exceeded")
     | Return false =>
         match get payload "sub" with
         | JNull => Raise (HTTPException 401 "Access token is invalid")
         | subject => Return (subject, None)
         end
     end,
     [Decode x_access_token]).
Proof.
  intros Hdec. unfold current_subject, except_JWTError, raise. unfold_py.
  rewrite jwt_decode_spec, Hdec. simpl.
  destruct (over_limit env (get payload "req_count")) as [[|]|e] eqn:Hover;
    simpl.
  - reflexivity.
  - destruct (get payload "sub"); reflexivity.
  - destruct e; try reflexivity.
    unfold over_limit in Hover. repeat case_match; discriminate.
Qed.

(** As the module is written the comparison of line 167 has no
    [RATE_LIMIT] to look up. *)
Lemma over_limit_unbound (req_count : jvalue) :
  RATE_LIMIT env = None -> over_limit env req_count = Raise NameError.
Proof. intros Hnone. unfold over_limit. by rewrite Hnone. Qed.

(** A [TypeError] of the decoding is not caught by [except JWTError]. *)
Lemma current_subject_access_TypeError (x_access_token x_refresh_token : token)
    (now : Z) :
  (jwt_decode env x_access_token now []).1 = Raise TypeError ->
  current_subject env x_access_token x_refresh_token now []
  = (Raise TypeError, [Decode x_access_token]).
Proof.
  intros Hacc. unfold current_subject, except_JWTError, raise. unfold_py.
  by rewrite jwt_decode_spec, Hacc.
Qed.

Lemma current_subject_refresh_valid (x_access_token x_refresh_token : token)
    (now : Z) (payload : gmap string jvalue) :
  (jwt_decode env x_access_token now []).1 = Raise JWTError ->
  (jwt_decode env x_refresh_token now []).1 = Return payload ->
  current_subject env x_access_token x_refresh_token now []
  = match get payload "sub" with
    | JNull =>
        (Raise (HTTPException 401 "Refresh token is invalid"),
         [Decode x_access_token; Decode x_refresh_token])
    | subject =>
        (Return (subject, Some (rotated env subject now)),
         [Decode x_access_token; Decode x_refresh_token;
          Encode (rotated env subject now)])
    end.
Proof.
  intros Hacc Hdec. unfold current_subject, except_JWTError, raise. unfold_py.
  rewrite (jwt_decode_spec x_access_token), Hacc. simpl.
  rewrite (jwt_decode_spec x_refresh_token), Hdec. simpl.
  destruct (get payload "sub") as [|n|s]; [reflexivity| |];
    unfold rotated; by destruct (_ =? 0).
Qed.

Lemma current_subject_both_invalid (x_access_token x_refresh_token : token)
    (now : Z) :
  (jwt_decode env x_access_token now []).1 = Raise JWTError ->
  (jwt_decode env x_refresh_token now []).1 = Raise JWTError ->
  current_subject env x_access_token x_refresh_token now []
  = (Raise (HTTPException 401 "Refresh token is expired"),
     [Decode x_access_token; Decode x_refresh_token]).
Proof.
  intros Hacc Href. unfold current_subject, except_JWTError, raise. unfold_py.
  rewrite (jwt_decode_spec x_access_token), Hacc. simpl.
  rewrite (jwt_decode_spec x_refresh_token), Href. reflexivity.
Qed.

Lemma current_subject_refresh_TypeError (x_access_token x_refresh_token : token)
    (now : Z) :
  (jwt_decode env x_access_token now []).1 = Raise JWTError ->
  (jwt_decode env x_refresh_token now []).1 = Raise TypeError ->
  current_subject env x_access_token x_refresh_token now []
  = (Raise TypeError, [Decode x_access_token; Decode x_refresh_token]).
Proof.
  intros Hacc Href. unfold current_subject, except_JWTError, raise. unfold_py.
  rewrite (jwt_decode_spec x_access_token), Hacc. simpl.
  rewrite (jwt_decode_spec x_refresh_token), Href. reflexivity.
Qed.

(** [get_current_user] adds nothing to the log of lines 162 to 203. *)
Lemma get_current_user_log (db : gmap Z (DBUser env))
    (x_access_token x_refresh_token : token) (now : Z) :
  truthy x_access_token = true -> truthy x_refresh_token = true ->
  (get_current_user env db x_access_token x_refresh_token now []).2
  = (current_subject env x_access_token x_refresh_token now []).2.
Proof.
  intros Ha Hr. unfold get_current_user. rewrite Ha, Hr. unfold_py. simpl.
  by destruct (current_subject env x_access_token x_refresh_token now [])
    as [[[subject new]|e] log].
Qed.

(** The refresh branch is the only one that hands on a new token. *)
Lemma current_subject_rotates (x_access_token x_refresh_token : token)
    (now : Z) (subject : jvalue) (new_access_token : token)
    (log : list event) :
  current_subject env x_access_token x_refresh_token now []
  = (Return (subject, Some new_access_token), log) ->
  (jwt_decode env x_access_token now []).1 = Raise JWTError
  /\ (exists s, subject = JStr s)
  /\ (exists payload,
        (jwt_decode env x_refresh_token now []).1 = Return payload
        /\ get payload "sub" = subject)
  /\ new_access_token = rotated env subject now
  /\ log = [Decode x_access_token; Decode x_refresh_token;
            Encode new_access_token].
Proof.
  destruct (jwt_decode env x_access_token now []).1 as [pa|ea] eqn:Hacc.
  { rewrite (current_subject_access_valid _ _ _ _ Hacc).
    repeat case_match; congruence. }
  apply jwt_decode_raises in Hacc as Hea. destruct Hea as [->| ->];
    [|by rewrite (current_subject_access_TypeError _ _ _ Hacc)].
  destruct (jwt_decode env x_refresh_token now []).1 as [pr|er] eqn:Href.
  - rewrite (current_subject_refresh_valid _ _ _ _ Hacc Href).
    destruct (jwt_decode_sub _ _ _ _ Href) as [Hsub|[s Hsub]];
      rewrite Hsub; [discriminate|].
    intros [= <- <- <-]. repeat split; eauto.
  - apply jwt_decode_raises in Href as Her. destruct Her as [->| ->].
    + by rewrite (current_subject_both_invalid _ _ _ Hacc Href).
    + by rewrite (current_subject_refresh_TypeError _ _ _ Hacc Href).
Qed.

(** Assigning the new token to the schema instance is refused: [User]
    declares no field [access_token]. *)
Lemma User_setattr_access_token (value : attr) (user : gmap string attr) :
  User_setattr "access_token" value user = Raise ValueError.
Proof. reflexivity. Qed.

(** So a call whose access token does not decode never returns a user:
    it ends in an exception, and whenever the refresh branch gets as far
    as line 215 for a resolved user, that exception is the [ValueError]
    of the assignment. *)
Theorem get_current_user_never_rotates (db : gmap Z (DBUser env))
    (x_access_token x_refresh_token : token) (now : Z) :
  (jwt_decode env x_access_token now []).1 = Raise JWTError ->
  (exists e,
     (get_current_user env db x_access_token x_refresh_token now []).1
     = Raise e)
  /\ (forall payload sub user_id user fields,
        truthy x_access_token = true ->
        truthy x_refresh_token = true ->
        (jwt_decode env x_refresh_token now []).1 = Return payload ->
        get payload "sub" = JStr sub ->
        int_of_str sub = Return user_id ->
        db !! user_id = Some user ->
        User_of env user = Return fields ->
        (get_current_user env db x_access_token x_refresh_token now []).1
        = Raise ValueError).
Proof.
  intros Hacc. split.
  - unfold get_current_user.
    destruct (negb (truthy x_access_token) || negb (truthy x_refresh_token));
      [by eexists|]. unfold_py.
    destruct (current_subject env x_access_token x_refresh_token now [])
      as [[[subject [new|]]|e] log] eqn:Hcur; simpl; [| |by eexists].
    + apply current_subject_rotates in Hcur as (_ & _ & _ & -> & _).
      unfold current_user_of, outcome_bind.
      repeat case_match; simplify_eq; by eexists.
    + destruct (jwt_decode env x_refresh_token now []).1 as [pr|er] eqn:Href.
      * rewrite (current_subject_refresh_valid _ _ _ _ Hacc Href) in Hcur.
        repeat case_match; congruence.
      * apply jwt_decode_raises in Href as Her. destruct Her as [->| ->].
        -- rewrite (current_subject_both_invalid _ _ _ Hacc Href) in Hcur.
           discriminate.
        -- rewrite (current_subject_refresh_TypeError _ _ _ Hacc Href)
             in Hcur.
           discriminate.
  - intros payload sub user_id user fields Ha Hr Href Hsub Hint Hdb Huser.
    unfold get_current_user. rewrite Ha, Hr. unfold_py. simpl.
    rewrite (current_subject_refresh_valid _ _ _ _ Hacc Href), Hsub. simpl.
    unfold current_user_of, int_of_jvalue. rewrite Hint. simpl.
    by rewrite Hdb, Huser.
Qed.

(** What [authenticate_user] issues for a stored user and a matching
    password: two tokens with [sub = username] and [req_count = 0], the
    access token good for [ACCESS_TOKEN_EXPIRE_MINUTES] and the refresh
    token for [REFRESH_TOKEN_EXPIRE_DAYS]. *)
Theorem authenticate_user_issues (db : gmap Z (DBUser env)) (user_id : Z)
    (password : string) (now : Z) (user : DBUser env) :
  db !! user_id = Some user ->
  verify_password env password (hashed_password env user) = true ->
  let claims exp : gmap string jvalue :=
    <["exp"%string := JInt exp]>
      (<["req_count"%string := JInt 0]>
         {["sub"%string := JStr (username env user)]}) in
  let access :=
    Jwt (SECRET_KEY env) (ALGORITHM env)
      (claims (now + ACCESS_TOKEN_EXPIRE_MINUTES env * 60)) in
  let refresh :=
    Jwt (SECRET_KEY env) (ALGORITHM env)
      (claims (now + REFRESH_TOKEN_EXPIRE_DAYS env * 86400)) in
  authenticate_user env db user_id password now []
  = (Return (mk_Token access refresh "JWT"), [Encode access; Encode refresh]).
Proof.
  intros Hdb Hpw. unfold authenticate_user. rewrite Hdb, Hpw. simpl.
  unfold create_access_token, create_refresh_token, jwt_encode. unfold_py.
  destruct (ACCESS_TOKEN_EXPIRE_MINUTES env * 60 =? 0);
    destruct (REFRESH_TOKEN_EXPIRE_DAYS env * 86400 =? 0); reflexivity.
Qed.

(** The same, for the proofs below. *)
Lemma authenticate_user_accepts (db : gmap Z (DBUser env)) (user_id : Z)
    (password : string) (now : Z) (user : DBUser env) :
  db !! user_id = Some user ->
  verify_password env password (hashed_password env user) = true ->
  authenticate_user env db user_id password now []
  = (let claims exp : gmap string jvalue :=
       <["exp"%string := JInt exp]>
         (<["req_count"%string := JInt 0]>
            {["sub"%string := JStr (username env user)]}) in
     let access :=
       Jwt (SECRET_KEY env) (ALGORITHM env)
         (claims (now + ACCESS_TOKEN_EXPIRE_MINUTES env * 60)) in
     let refresh :=
       Jwt (SECRET_KEY env) (ALGORITHM env)
         (claims (now + REFRESH_TOKEN_EXPIRE_DAYS env * 86400)) in
     (Return (mk_Token access refresh "JWT"),
      [Encode access; Encode refresh])).
Proof.
  intros Hdb Hpw. unfold authenticate_user. rewrite Hdb, Hpw. simpl.
  unfold create_access_token, create_refresh_token, jwt_encode. unfold_py.
  destruct (ACCESS_TOKEN_EXPIRE_MINUTES env * 60 =? 0);
    destruct (REFRESH_TOKEN_EXPIRE_DAYS env * 86400 =? 0); reflexivity.
Qed.

(** An unknown user and a wrong password are refused alike. *)
Lemma authenticate_user_refuses (db : gmap Z (DBUser env)) (user_id : Z)
    (password : string) (now : Z) :
  (forall user, db !! user_id = Some user ->
     verify_password env password (hashed_password env user) = false) ->
  authenticate_user env db user_id password now []
  = (Raise (HTTPException 401 "Incorrect username or password"), []).
Proof.
  intros Hno. unfold authenticate_user.
  destruct (db !! user_id) as [user|]; [|reflexivity].
  by rewrite (Hno user eq_refl).
Qed.

(** *** In a module that binds [RATE_LIMIT] *)

(** With the name of line 167 bound to a ceiling, a call whose access
    token decodes, within the quota, resolves the subject as a primary
    key: the record with that key if there is one, 401 "Could not
    validate credentials" if there is none. *)
Lemma get_current_user_resolves (db : gmap Z (DBUser env))
    (x_access_token x_refresh_token : token) (now : Z)
    (payload : gmap string jvalue) (limit n : Z) (sub : string)
    (user_id : Z) :
  RATE_LIMIT env = Some limit ->
  truthy x_access_token = true ->
  truthy x_refresh_token = true ->
  (jwt_decode env x_access_token now []).1 = Return payload ->
  get payload "req_count" = JInt n ->
  n <= limit ->
  get payload "sub" = JStr sub ->
  int_of_str sub = Return user_id ->
  get_current_user env db x_access_token x_refresh_token now []
  = (match db !! user_id with
     | Some user => User_of env user
     | None => Raise (HTTPException 401 "Could not validate credentials")
     end,
     [Decode x_access_token]).
Proof.
  intros Hlimit Ha Hr Hdec Hcount Hquota Hsub Hint. unfold get_current_user.
  rewrite Ha, Hr. unfold_py. simpl.
  rewrite (current_subject_access_valid _ _ _ _ Hdec), Hcount, Hsub.
  unfold over_limit. rewrite Hlimit.
  destruct (Z.ltb_spec limit n); [lia|]. simpl.
  unfold current_user_of, int_of_jvalue. rewrite Hint. simpl.
  destruct (db !! user_id) as [user|]; [|reflexivity].
  by destruct (User_of env user).
Qed.

(** And a call whose access token decodes with a [req_count] above the
    ceiling fails with 429 "Rate limit exceeded" after that one
    decoding. *)
Lemma quota_exceeded_is_terminal (db : gmap Z (DBUser env))
    (x_access_token x_refresh_token : token) (now : Z)
    (payload : gmap string jvalue) (limit n : Z) :
  RATE_LIMIT env = Some limit ->
  truthy x_access_token = true ->
  truthy x_refresh_token = true ->
  (jwt_decode env x_access_token now []).1 = Return payload ->
  get payload "req_count" = JInt n ->
  limit < n ->
  get_current_user env db x_access_token x_refresh_token now []
  = (Raise (HTTPException 429 "Rate limit exceeded"),
     [Decode x_access_token]).
Proof.
  intros Hlimit Ha Hr Hdec Hcount Hover. unfold get_current_user.
  rewrite Ha, Hr. unfold_py. simpl.
  rewrite (current_subject_access_valid _ _ _ _ Hdec), Hcount.
  unfold over_limit. rewrite Hlimit.
  destruct (Z.ltb_spec limit n); [reflexivity | lia].
Qed.

(** *** The module as it is written *)

(** C3 (the code departs from the claim).  The claim: a call whose
    access token decodes with a [req_count] above the ceiling fails with
    429 "Rate limit exceeded".  The module binds no [RATE_LIMIT]: for
    every call with both tokens present whose access token decodes,
    whatever its [req_count], line 167 raises [NameError] after that one
    decoding; the 429 is never raised, and no user is returned
    either. *)
Theorem decoded_access_token_raises_NameError (db : gmap Z (DBUser env))
    (x_access_token x_refresh_token : token) (now : Z)
    (payload : gmap string jvalue) :
  RATE_LIMIT env = None ->
  truthy x_access_token = true ->
  truthy x_refresh_token = true ->
  (jwt_decode env x_access_token now []).1 = Return payload ->
  get_current_user env db x_access_token x_refresh_token now []
  = (Raise NameError, [Decode x_access_token]).
Proof.
  intros Hnone Ha Hr Hdec. unfold get_current_user.
  rewrite Ha, Hr. unfold_py. simpl.
  by rewrite (current_subject_access_valid _ _ _ _ Hdec),
    (over_limit_unbound _ Hnone).
Qed.

(** C1 (the code departs from the claim).  The claim: when the access
    token fails to decode and the refresh token decodes, a new access
    token is minted for the subject and surfaced to the caller with the
    resolved identity.  On that very path, for a subject that resolves
    to a stored user whose schema instance is built: the new access
    token is minted (the [jwt.encode] is the last call to the library),
    and then line 215 assigns it to [user.access_token], a field that
    [User] does not declare; the call raises [ValueError], so that
    neither the token nor the identity reaches the caller. *)
Theorem rotated_token_is_never_surfaced (db : gmap Z (DBUser env))
    (x_access_token x_refresh_token : token) (now : Z)
    (payload : gmap string jvalue) (sub : string) (user_id : Z)
    (user : DBUser env) (fields : gmap string attr) :
  truthy x_access_token = true ->
  truthy x_refresh_token = true ->
  (jwt_decode env x_access_token now []).1 = Raise JWTError ->
  (jwt_decode env x_refresh_token now []).1 = Return payload ->
  get payload "sub" = JStr sub ->
  int_of_str sub = Return user_id ->
  db !! user_id = Some user ->
  User_of env user = Return fields ->
  get_current_user env db x_access_token x_refresh_token now []
  = (Raise ValueError,
     [Decode x_access_token; Decode x_refresh_token;
      Encode (Jwt (SECRET_KEY env) (ALGORITHM env)
                (<["exp"%string :=
                     JInt (now + ACCESS_TOKEN_EXPIRE_MINUTES env * 60)]>
                   {["sub"%string := JStr sub]}))]).
Proof.
  intros Ha Hr Hacc Href Hsub Hint Hdb Huser.
  unfold get_current_user. rewrite Ha, Hr. unfold_py. simpl.
  rewrite (current_subject_refresh_valid _ _ _ _ Hacc Href), Hsub. simpl.
  unfold current_user_of, int_of_jvalue. rewrite Hint. simpl.
  by rewrite Hdb, Huser.
Qed.

(** C9.  The access token that the refresh branch hands on embeds the
    subject and the expiry and nothing else: it has no [req_count], and
    whenever it is decoded before its expiry it decodes, to exactly
    these two claims, so that line 166 reads [None] for [req_count];
    the access token that [authenticate_user] issues to a stored user
    with the matching password embeds [req_count = 0]. *)
Theorem rotated_token_has_no_request_count
    (x_access_token x_refresh_token : token) (now : Z) (subject : jvalue)
    (new_access_token : token) (log : list event) :
  current_subject env x_access_token x_refresh_token now []
  = (Return (subject, Some new_access_token), log) ->
  let claims : gmap string jvalue :=
    <["exp"%string := JInt (now + ACCESS_TOKEN_EXPIRE_MINUTES env * 60)]>
      {["sub"%string := subject]} in
  new_access_token = Jwt (SECRET_KEY env) (ALGORITHM env) claims
  /\ claims !! "req_count"%string = None
  /\ (forall later log',
        later <= now + ACCESS_TOKEN_EXPIRE_MINUTES env * 60 ->
        jwt_decode env new_access_token later log'
        = (Return claims, log' ++ [Decode new_access_token])
        /\ get claims "sub" = subject
        /\ get claims "req_count" = JNull)
  /\ (forall (db : gmap Z (DBUser env)) user_id password issued user,
        db !! user_id = Some user ->
        verify_password env password (hashed_password env user) = true ->
        exists tokens payload log',
          authenticate_user env db user_id password issued []
          = (Return tokens, log')
          /\ access_token tokens = Jwt (SECRET_KEY env) (ALGORITHM env) payload
          /\ payload !! "req_count"%string = Some (JInt 0)).
Proof.
  intros Hcur claims.
  apply current_subject_rotates in Hcur as (_ & [s ->] & _ & -> & _).
  split; [reflexivity|]. split; [done|]. split.
  - intros later log' Hlater. unfold rotated. fold claims. subst claims.
    rewrite jwt_decode_own; try done;
      [|intros v; rewrite lookup_singleton_eq; intros [= <-]; eauto].
    destruct (Z.leb_spec later (now + ACCESS_TOKEN_EXPIRE_MINUTES env * 60));
      [|lia].
    by repeat split.
  - intros db user_id password issued user Hdb Hpw.
    rewrite (authenticate_user_accepts _ _ _ _ _ Hdb Hpw).
    eexists _, _, _. split; [reflexivity|]. split; [reflexivity|].
    by rewrite lookup_insert_ne, lookup_insert_eq by done.
Qed.

(** For every call with both tokens present: if the access token
    decodes, the only call to the token library is that decoding (the
    refresh token is never decoded, nothing is minted); if it fails with
    a [JWTError] and the refresh token decodes, then either the refresh
    token carries a subject, and a brand-new access token with that
    subject and the access lifetime is minted before the subject is
    resolved (a subject without a user record fails with 401 "Could not
    validate credentials"), or it carries none, and the call fails with
    401 "Refresh token is invalid" without minting; if both fail with a
    [JWTError], the call fails with 401 "Refresh token is expired". *)
Theorem token_validation_branches (db : gmap Z (DBUser env))
    (x_access_token x_refresh_token : token) (now : Z) :
  truthy x_access_token = true ->
  truthy x_refresh_token = true ->
  let run := get_current_user env db x_access_token x_refresh_token now [] in
  let access := (jwt_decode env x_access_token now []).1 in
  let refresh := (jwt_decode env x_refresh_token now []).1 in
  (forall payload, access = Return payload -> run.2 = [Decode x_access_token])
  /\ (forall payload, access = Raise JWTError -> refresh = Return payload ->
      match get payload "sub" with
      | JNull =>
          run = (Raise (HTTPException 401 "Refresh token is invalid"),
                 [Decode x_access_token; Decode x_refresh_token])
      | subject =>
          run.2 = [Decode x_access_token; Decode x_refresh_token;
                   Encode (Jwt (SECRET_KEY env) (ALGORITHM env)
                     (<["exp"%string :=
                          JInt (now + ACCESS_TOKEN_EXPIRE_MINUTES env * 60)]>
                        {["sub"%string := subject]}))]
          /\ (forall user_id,
               int_of_jvalue subject = Return user_id ->
               db !! user_id = None ->
               run.1
               = Raise (HTTPException 401 "Could not validate credentials"))
      end)
  /\ (access = Raise JWTError -> refresh = Raise JWTError ->
      run = (Raise (HTTPException 401 "Refresh token is expired"),
             [Decode x_access_token; Decode x_refresh_token])).
Proof.
  intros Ha Hr run access refresh. subst run access refresh.
  split; [|split].
  - intros payload Hacc.
    rewrite get_current_user_log by done.
    by rewrite (current_subject_access_valid _ _ _ _ Hacc).
  - intros payload Hacc Href.
    pose proof (current_subject_refresh_valid _ _ _ _ Hacc Href) as Hcur.
    pose proof (get_current_user_log db _ _ now Ha Hr) as Hlog.
    unfold get_current_user in *. rewrite Ha, Hr in *. simpl in *.
    unfold py_bind, py_lift in *.
    destruct (get payload "sub") as [|n|s]; rewrite Hcur in *; simpl in *.
    + reflexivity.
    + split; [exact Hlog|]. intros user_id [= <-] Hdb.
      unfold current_user_of. simpl. by rewrite Hdb.
    + split; [exact Hlog|]. intros user_id Hint Hdb.
      unfold current_user_of, int_of_jvalue. rewrite Hint. simpl.
      by rewrite Hdb.
  - intros Hacc Href.
    unfold get_current_user. rewrite Ha, Hr. unfold_py. simpl.
    by rewrite (current_subject_both_invalid _ _ _ Hacc Href).
Qed.

End Tokens.

(** An access token past its expiry and a good refresh token for the
    subject "2", the key of a stored user. *)
Lemma rotated_token_is_never_surfaced_witness :
  Common.get_current_user Common.written_env Common.demo_db
    (Common.demo_token "2" 0 900) (Common.demo_token "2" 0 605800) 1000 []
  = (Raise ValueError,
     [Common.Decode (Common.demo_token "2" 0 900);
      Common.Decode (Common.demo_token "2" 0 605800);
      Common.Encode
        (Common.Jwt "k3y" "HS256"
           (<["exp"%string := Common.JInt 2800]>
              {["sub"%string := Common.JStr "2"]}))]).
Proof.
  apply (rotated_token_is_never_surfaced Common.written_env Common.demo_db
           (Common.demo_token "2" 0 900) (Common.demo_token "2" 0 605800)
           1000 (Common.demo_claims "2" 0 605800) "2" 2
           (Common.mk_user_row 2 "bob" "builder" "Bob Roberts")
           (<["userId"%string := Common.AInt 2]>
            (<["userName"%string := Common.AStr "bob"]>
            (<["fullName"%string := Common.AStr "Bob Roberts"]>
            (<["email"%string := Common.ANone]>
               {["token"%string := Common.ANone]})))));
    reflexivity.
Defined.

(** An access token with [req_count = 6], and one with [req_count = 0],
    in the module as it is written. *)
Lemma decoded_access_token_raises_NameError_witness :
  Common.get_current_user Common.written_env Common.demo_db
    (Common.demo_token "1" 6 2800) (Common.demo_token "1" 0 605800) 1000 []
  = (Raise NameError, [Common.Decode (Common.demo_token "1" 6 2800)])
  /\ Common.get_current_user Common.written_env Common.demo_db
       (Common.demo_token "1" 0 2800) (Common.demo_token "1" 0 605800) 1000 []
     = (Raise NameError, [Common.Decode (Common.demo_token "1" 0 2800)]).
Proof.
  split.
  - apply (decoded_access_token_raises_NameError Common.written_env
             Common.demo_db (Common.demo_token "1" 6 2800)
             (Common.demo_token "1" 0 605800) 1000
             (Common.demo_claims "1" 6 2800));
      reflexivity.
  - apply (decoded_access_token_raises_NameError Common.written_env
             Common.demo_db (Common.demo_token "1" 0 2800)
             (Common.demo_token "1" 0 605800) 1000
             (Common.demo_claims "1" 0 2800));
      reflexivity.
Defined.

(** A client whose access token ran out at 900 and whose refresh token
    is good until 605800, seen at 1000; the new token decoded a second
    later; and the login of the first user. *)
Lemma rotated_token_has_no_request_count_witness :
  let claims : gmap string Common.jvalue :=
    <["exp"%string := Common.JInt 2800]> {["sub"%string := Common.JStr "1"]} in
  let new_access_token := Common.Jwt "k3y" "HS256" claims in
  Common.current_subject Common.written_env
    (Common.demo_token "1" 0 900) (Common.demo_token "1" 0 605800) 1000 []
  = (Return (Common.JStr "1", Some new_access_token),
     [Common.Decode (Common.demo_token "1" 0 900);
      Common.Decode (Common.demo_token "1" 0 605800);
      Common.Encode new_access_token])
  /\ Common.jwt_decode Common.written_env new_access_token 1001 []
     = (Return claims, [Common.Decode new_access_token])
  /\ Common.get claims "req_count" = Common.JNull
  /\ exists tokens payload log',
       Common.authenticate_user Common.written_env Common.demo_db 1
         "wonderland" 1000 []
       = (Return tokens, log')
       /\ Common.access_token tokens = Common.Jwt "k3y" "HS256" payload
       /\ payload !! "req_count"%string = Some (Common.JInt 0).
Proof.
  intros claims new_access_token.
  assert (Common.current_subject Common.written_env
            (Common.demo_token "1" 0 900) (Common.demo_token "1" 0 605800)
            1000 []
          = (Return (Common.JStr "1", Some new_access_token),
             [Common.Decode (Common.demo_token "1" 0 900);
              Common.Decode (Common.demo_token "1" 0 605800);
              Common.Encode new_access_token])) as Hrun by reflexivity.
  split; [exact Hrun|].
  destruct (rotated_token_has_no_request_count Common.written_env _ _ _ _ _ _
              Hrun)
    as (_ & _ & Hdecoded & Hlogin).
  destruct (Hdecoded 1001 []) as (Hdec & _ & Hcount); [by compute|].
  split; [exact Hdec|]. split; [exact Hcount|].
  apply (Hlogin Common.demo_db 1 "wonderland"%string 1000
           (Common.mk_user_row 1 "alice" "wonderland" "Alice Liddell"));
    reflexivity.
Defined.

(** Neither token decodes: one is past its expiry, the other is signed
    with another key. *)
Lemma token_validation_branches_witness :
  Common.get_current_user Common.written_env Common.demo_db
    (Common.demo_token "1" 0 900)
    (Common.Jwt "other" "HS256" (Common.demo_claims "1" 0 605800)) 1000 []
  = (Raise (HTTPException 401 "Refresh token is expired"),
     [Common.Decode (Common.demo_token "1" 0 900);
      Common.Decode
        (Common.Jwt "other" "HS256" (Common.demo_claims "1" 0 605800))]).
Proof.
  destruct (token_validation_branches Common.written_env Common.demo_db
              (Common.demo_token "1" 0 900)
              (Common.Jwt "other" "HS256" (Common.demo_claims "1" 0 605800))
              1000 eq_refl eq_refl)
    as (_ & _ & Hboth).
  apply Hboth; reflexivity.
Defined.

(** C5 (the code departs from the claim).  The claim: a token pair
    that [authenticate_user] issues, validated before expiry, resolves
    back to the user record it was issued for.  Issued for user 1, whose
    username is "alice", the pair makes [get_current_user] raise
    [ValueError] at [int(username)]; issued for user 3, whose username
    is "2", it resolves to the record of user 2. *)
Theorem issued_pair_does_not_resolve :
  let issue user_id password :=
    (Common.authenticate_user Common.demo_env Common.demo_db
       user_id password 1000 []).1 in
  let pair sub :=
    Common.mk_Token (Common.demo_token sub 0 2800)
      (Common.demo_token sub 0 605800) "JWT" in
  issue 1 "wonderland"%string = Return (pair "alice"%string)
  /\ Common.get_current_user Common.demo_env Common.demo_db
       (Common.demo_token "alice" 0 2800) (Common.demo_token "alice" 0 605800)
       1001 []
     = (Raise ValueError, [Common.Decode (Common.demo_token "alice" 0 2800)])
  /\ issue 3 "second"%string = Return (pair "2"%string)
  /\ Common.get_current_user Common.demo_env Common.demo_db
       (Common.demo_token "2" 0 2800) (Common.demo_token "2" 0 605800)
       1001 []
     = (Common.demo_User_of
          (Common.mk_user_row 2 "bob" "builder" "Bob Roberts"),
        [Common.Decode (Common.demo_token "2" 0 2800)]).
Proof. repeat split; reflexivity. Qed.

(** ** Instances *)

(** A bucket whose capacity is itself a [timedelta]. *)
Lemma TokenBucket_every_call_raises_witness :
  (TokenBucket.allow_request (current_time 7000000)
     (TokenBucket.init (timedelta_seconds 5) (PInt 1) (current_time 0))).1
  = Raise TypeError.
Proof.
  apply (TokenBucket_every_call_raises _ 7000000 0);
    [apply TokenBucket.reachable_init | reflexivity..].
Defined.

Lemma LeakyBucket_every_call_raises_witness :
  LeakyBucket.allow_request (current_time 7000000) "GET /players/"%string
    (LeakyBucket.init (PInt 2) (PFloat 1) (current_time 0))
  = (Raise TypeError, LeakyBucket.init (PInt 2) (PFloat 1) (current_time 0)).
Proof.
  apply (LeakyBucket_every_call_raises _ 7000000 0 "GET /players/"%string);
    [apply LeakyBucket.reachable_init | reflexivity..].
Defined.

(** A window with [limit = 0]: the call that opens a new window is
    admitted all the same. *)
Lemma FixedWindow_timedelta_rule_witness :
  FixedWindow.allow_request (current_time 61000000) (current_time 61000005)
    (FixedWindow.init (PInt 0) (timedelta_seconds 60) (current_time 0))
  = (Return true,
     FixedWindow.mk (PInt 0) (timedelta_seconds 60) (PInt 1)
       (PDatetime 61000005)).
Proof.
  apply (FixedWindow_timedelta_rule _ 61000000 61000005 0 (60 * second_us) 0 0);
    reflexivity.
Defined.

Lemma FixedWindow_timedelta_scenario_witness :
  FixedWindow.allow_requests
    [(current_time 1000000, current_time 1000000);
     (current_time 2000000, current_time 2000000);
     (current_time 3000000, current_time 3000000);
     (current_time 4000000, current_time 4000000);
     (current_time 61000000, current_time 61000005)]
    (FixedWindow.init (PInt 3) (timedelta_seconds 60) (current_time 0))
  = ([Return true; Return true; Return true; Return false; Return true],
     FixedWindow.mk (PInt 3) (timedelta_seconds 60) (PInt 1)
       (PDatetime 61000005)).
Proof.
  apply (FixedWindow_timedelta_scenario 0 1000000 2000000 3000000 4000000
           61000000 61000005); unfold second_us; lia.
Defined.

(** The first request of a client, with the constants of [main.py]. *)
Lemma check_throttle_never_cools_down_witness :
  exists reset_time seconds,
    PlayersService.throttle_current PlayersService.settings
      PlayersService.datetime_strptime
      (PlayersService.throttle_key "203.0.113.7") 1000000123 ∅
    = Return (inr (0, reset_time))
    /\ (PlayersService.check_throttle PlayersService.settings
          PlayersService.datetime_strptime "203.0.113.7" 1000000123 ∅).2
       = <[PlayersService.throttle_key "203.0.113.7" :=
             Redis.mk_entry (Redis.Throttle 1 reset_time)
               (Some (1000000123 + seconds * second_us))]> ∅.
Proof.
  apply (check_throttle_never_cools_down PlayersService.settings
           PlayersService.datetime_strptime "203.0.113.7" 1000000123 ∅
           _ (true, None)).
  - by compute.
  - reflexivity.
  - reflexivity.
Defined.

(** The request that follows it a second later. *)
Lemma check_throttle_live_record_raises_witness :
  let st1 : Redis.store :=
    {[PlayersService.throttle_key "203.0.113.7" :=
        Redis.mk_entry (Redis.Throttle 1 1060000123) (Some 1060000123)]} in
  PlayersService.check_throttle PlayersService.settings
    PlayersService.datetime_strptime "203.0.113.7" 1001000123 st1
  = (Raise AttributeError, st1).
Proof.
  intros st1.
  apply (check_throttle_live_record_raises PlayersService.settings
           "203.0.113.7" 1001000123 1 1060000123 st1).
  reflexivity.
Defined.

(** User 2 comes back with an access token past its expiry and a good
    refresh token. *)
Lemma get_current_user_never_rotates_witness :
  (Common.get_current_user Common.demo_env Common.demo_db
     (Common.demo_token "2" 0 900) (Common.demo_token "2" 0 605800)
     1000 []).1
  = Raise ValueError.
Proof.
  destruct (get_current_user_never_rotates Common.demo_env Common.demo_db
              (Common.demo_token "2" 0 900) (Common.demo_token "2" 0 605800)
              1000 eq_refl) as [_ Hresolved].
  apply (Hresolved (Common.demo_claims "2" 0 605800) "2"%string 2
           (Common.mk_user_row 2 "bob" "builder" "Bob Roberts")
           (<["userId"%string := Common.AInt 2]>
           (<["userName"%string := Common.AStr "bob"]>
           (<["fullName"%string := Common.AStr "Bob Roberts"]>
           (<["email"%string := Common.ANone]>
              {["token"%string := Common.ANone]})))));
    reflexivity.
Defined.

Lemma authenticate_user_issues_witness :
  Common.authenticate_user Common.demo_env Common.demo_db 1 "wonderland"
    1000 []
  = (Return (Common.mk_Token (Common.demo_token "alice" 0 2800)
               (Common.demo_token "alice" 0 605800) "JWT"),
     [Common.Encode (Common.demo_token "alice" 0 2800);
      Common.Encode (Common.demo_token "alice" 0 605800)]).
Proof.
  apply (authenticate_user_issues Common.demo_env Common.demo_db 1
           "wonderland" 1000
           (Common.mk_user_row 1 "alice" "wonderland" "Alice Liddell"));
    reflexivity.
Defined.

(** Seven requests of one client, a second apart, with the constants of
    [main.py]: five are admitted. *)
Lemma check_rate_limits_burst_witness :
  (PlayersService.check_rate_limits PlayersService.settings "203.0.113.7"
     [0; 1000000; 2000000; 3000000; 4000000; 5000000; 6000000] ∅).1
  = [Return true; Return true; Return true; Return true; Return true;
     Return false; Return false].
Proof.
  apply (check_rate_limits_burst PlayersService.settings eq_refl
           "203.0.113.7" 0
           [1000000; 2000000; 3000000; 4000000; 5000000; 6000000] ∅).
  - reflexivity.
  - repeat (constructor; [unfold second_us; simpl; lia|]). constructor.
Defined.

(** * The rest of the modules *)

(** ** The two gates side by side *)

Section Gates.

Import PlayersService.

Variable cfg : config.
Variable strptime : Z -> outcome Z.

Lemma rate_limit_key_throttle_key (ip ip' : string) :
  rate_limit_key ip <> throttle_key ip'.
Proof. unfold rate_limit_key, throttle_key. intros Heq. discriminate Heq. Qed.

Lemma throttle_key_inj (ip ip' : string) :
  throttle_key ip = throttle_key ip' -> ip = ip'.
Proof. unfold throttle_key. intros Heq. by simplify_eq. Qed.

Lemma rate_limit_key_inj (ip ip' : string) :
  rate_limit_key ip = rate_limit_key ip' -> ip = ip'.
Proof. unfold rate_limit_key. intros Heq. by simplify_eq. Qed.

(** [check_throttle] writes under the throttle key of its client only. *)
Lemma check_throttle_frame (ip : string) (now : Z) (st : Redis.store)
    (key : string) :
  key <> throttle_key ip ->
  (check_throttle cfg strptime ip now st).2 !! key = st !! key.
Proof.
  intros Hne. unfold check_throttle. unfold_py.
  destruct (throttle_current cfg strptime (throttle_key ip) now st)
    as [[remaining|[count reset_time]]|e]; try reflexivity.
  destruct (throttle_count_admits cfg (throttle_key ip) now count reset_time st)
    as (c' & r' & s & _ & -> & _). simpl. by rewrite lookup_insert_ne.
Qed.

(** [check_rate_limit] writes under the counter key of its client only. *)
Lemma check_rate_limit_frame (ip : string) (now : Z) (st : Redis.store)
    (key : string) :
  key <> rate_limit_key ip ->
  (check_rate_limit cfg ip now st).2 !! key = st !! key.
Proof.
  intros Hne. unfold check_rate_limit, Redis.incr, Redis.expire. unfold_py.
  repeat case_match; simplify_eq; simpl;
    rewrite ?lookup_delete_ne, ?lookup_insert_ne by done; reflexivity.
Qed.

(** Neither gate touches what the other one keeps, nor the record of
    another client: after [check_throttle] for [ip] every rate-limit
    counter and the throttle records of the other clients are as they
    were, and after [check_rate_limit] for [ip] every throttle record and
    the counters of the other clients are; whatever the constants, the
    stored values and the outcome of the call (also when it raises). *)
Theorem gates_keep_to_their_keys (ip : string) (now : Z) (st : Redis.store) :
  (forall ip',
     (check_throttle cfg strptime ip now st).2 !! rate_limit_key ip'
     = st !! rate_limit_key ip')
  /\ (forall ip', ip' <> ip ->
      (check_throttle cfg strptime ip now st).2 !! throttle_key ip'
      = st !! throttle_key ip')
  /\ (forall ip',
      (check_rate_limit cfg ip now st).2 !! throttle_key ip'
      = st !! throttle_key ip')
  /\ (forall ip', ip' <> ip ->
      (check_rate_limit cfg ip now st).2 !! rate_limit_key ip'
      = st !! rate_limit_key ip').
Proof.
  repeat split; intros ip'.
  - apply check_throttle_frame, rate_limit_key_throttle_key.
  - intros Hne. apply check_throttle_frame. intros Heq.
    by apply throttle_key_inj in Heq.
  - apply check_rate_limit_frame. intros Heq.
    by apply (rate_limit_key_throttle_key ip ip').
  - intros Hne. apply check_rate_limit_frame. intros Heq.
    by apply rate_limit_key_inj in Heq.
Qed.

(** An exception of [check_throttle] is the [ValueError] of line 107 on
    a text without a colon, or what line 108 raised. *)
Lemma check_throttle_raises (ip : string) (now : Z) (st st' : Redis.store)
    (e : exn) :
  check_throttle cfg strptime ip now st = (Raise e, st') ->
  e = ValueError \/ exists text, strptime text = Raise e.
Proof.
  unfold check_throttle. unfold_py.
  destruct (throttle_current cfg strptime (throttle_key ip) now st)
    as [[remaining|[count reset_time]]|e'] eqn:Hcur; try congruence.
  - destruct (throttle_count_admits cfg (throttle_key ip) now count
                reset_time st) as (c' & r' & s & _ & -> & _). congruence.
  - intros [= -> _]. revert Hcur. unfold throttle_current, outcome_bind.
    destruct (Redis.get (throttle_key ip) now st) as [[n|c r]|].
    + intros [= <-]. by left.
    + destruct (strptime r) as [r'|e'] eqn:Hparse.
      * repeat case_match; congruence.
      * intros [= ->]. eauto.
    + congruence.
Qed.

Context {Response : Type}.

(** [int(cooldown_time)] has no value to give. *)
Lemma int_of_cooldown_time_raises (cooldown_time : option Z) :
  int_of_cooldown_time cooldown_time = Raise TypeError.
Proof. by destruct cooldown_time. Qed.

(** What [check_throttle] answers when it does not admit. *)
Lemma throttle_middleware_run (ip : string) (now : Z)
    (call_next : py Redis.store Response) (st : Redis.store) :
  throttle_middleware cfg strptime ip now call_next st
  = match check_throttle cfg strptime ip now st with
    | (Return (true, _), st') => call_next st'
    | (Return (false, _), st') => (Raise TypeError, st')
    | (Raise e, st') => (Raise e, st')
    end.
Proof.
  unfold throttle_middleware. unfold_py.
  destruct (check_throttle cfg strptime ip now st) as [[[[|] c]|e] st'];
    simpl; try reflexivity.
  by rewrite int_of_cooldown_time_raises.
Qed.

(** The answer that [throttle_middleware] prepares for a client it turns
    away is never given.  Whenever [check_throttle] rejects, the call
    [int(cooldown_time)] on the [timedelta] raises [TypeError] before the
    [HTTPException] is built, with the store as the check left it; and
    provided line 108 itself raises no [HTTPException], every
    [HTTPException] that comes out of the middleware was raised by the
    rest of the application, on a request that the check admitted. *)
Theorem throttle_middleware_never_answers_429 (ip : string) (now : Z)
    (call_next : py Redis.store Response) (st : Redis.store) :
  (forall text status detail,
     strptime text <> Raise (HTTPException status detail)) ->
  (forall cooldown_time st',
     check_throttle cfg strptime ip now st
     = (Return (false, cooldown_time), st') ->
     throttle_middleware cfg strptime ip now call_next st
     = (Raise TypeError, st'))
  /\ (forall status detail st',
      throttle_middleware cfg strptime ip now call_next st
      = (Raise (HTTPException status detail), st') ->
      exists st1,
        check_throttle cfg strptime ip now st = (Return (true, None), st1)
        /\ call_next st1 = (Raise (HTTPException status detail), st')).
Proof.
  intros Hstrptime. rewrite throttle_middleware_run. split.
  - by intros c st' ->.
  - intros status detail st'.
    destruct (check_throttle cfg strptime ip now st) as [[[[|] c]|e] st1]
      eqn:Hcheck; try discriminate.
    + intros Hnext. exists st1. split; [|done].
      revert Hcheck. unfold check_throttle. unfold_py.
      destruct (throttle_current cfg strptime (throttle_key ip) now st)
        as [[remaining|[count reset_time]]|e]; try congruence.
      destruct (throttle_count_admits cfg (throttle_key ip) now count
                  reset_time st) as (c' & r' & s & _ & -> & _).
      congruence.
    + intros [= -> <-].
      destruct (check_throttle_raises _ _ _ _ _ Hcheck) as [[=]|[text Hparse]].
      by apply Hstrptime in Hparse.
Qed.

(** What [rate_limit_middleware] does on a counter that has reached the
    ceiling. *)
Lemma rate_limit_middleware_refuses (ip : string) (now n : Z)
    (call_next : py Redis.store Response) (st : Redis.store) :
  Redis.get (rate_limit_key ip) now st = Some (Redis.Counter n) ->
  RATE_LIMIT cfg <= n ->
  rate_limit_middleware cfg ip now call_next st
  = (Raise (HTTPException 429 "Rate limit exceeded"), st).
Proof.
  intros Hget Hfull. unfold rate_limit_middleware, check_rate_limit.
  unfold_py. rewrite Hget. simpl.
  destruct (Z.leb_spec (RATE_LIMIT cfg) n); [reflexivity | lia].
Qed.

(** [rate_limit_middleware] as a gate, whatever the constants are (with a
    positive rate period): over a missing or expired counter, and over a
    counter below [RATE_LIMIT], the rest of the application runs, and it
    runs on the store in which the request has already been counted;
    over a counter that has reached [RATE_LIMIT] the middleware raises
    429 "Rate limit exceeded" and neither the store nor the rest of the
    application is touched; over a text that is not a number it fails
    with [ValueError]. *)
Theorem rate_limit_middleware_gate (ip : string) (now : Z)
    (call_next : py Redis.store Response) (st : Redis.store) :
  0 < RATE_PERIOD cfg ->
  rate_limit_middleware cfg ip now call_next st
  = match Redis.get (rate_limit_key ip) now st with
    | None => call_next (counted cfg ip now 0 st)
    | Some (Redis.Counter n) =>
        if RATE_LIMIT cfg <=? n
        then (Raise (HTTPException 429 "Rate limit exceeded"), st)
        else call_next (counted cfg ip now n st)
    | Some (Redis.Throttle _ _) => (Raise ValueError, st)
    end.
Proof.
  intros Hpos. unfold rate_limit_middleware, py_bind.
  destruct (Redis.get (rate_limit_key ip) now st) as [[n|c r]|] eqn:Hget.
  - rewrite (check_rate_limit_counter cfg Hpos _ _ _ _ Hget).
    by destruct (RATE_LIMIT cfg <=? n).
  - by rewrite (check_rate_limit_other_text cfg _ _ _ _ _ Hget).
  - by rewrite (check_rate_limit_missing cfg Hpos _ _ _ Hget).
Qed.

(** The throttle is asked first.  A request that it does not admit
    (it is rejected, or the check raises) ends there with an exception:
    the outcome is the same whatever the rest of the application is, so
    neither the rate limit nor the endpoint has run, and the counter of
    every client reads as it did before the request. *)
Theorem http_middlewares_throttle_first (ip : string) (now now' : Z)
    (st : Redis.store) :
  (forall cooldown_time,
     (check_throttle cfg strptime ip now st).1
     <> Return (true, cooldown_time)) ->
  exists e,
    (forall endpoint : py Redis.store Response,
       http_middlewares cfg strptime ip now now' endpoint st
       = (Raise e, (check_throttle cfg strptime ip now st).2))
    /\ (forall ip' t,
        Redis.get (rate_limit_key ip') t
          (check_throttle cfg strptime ip now st).2
        = Redis.get (rate_limit_key ip') t st).
Proof.
  intros Hno.
  assert (forall ip' t,
            Redis.get (rate_limit_key ip') t
              (check_throttle cfg strptime ip now st).2
            = Redis.get (rate_limit_key ip') t st) as Hframe.
  { intros ip' t. unfold Redis.get.
    by rewrite check_throttle_frame by apply rate_limit_key_throttle_key. }
  unfold http_middlewares.
  destruct (check_throttle cfg strptime ip now st) as [[[[|] c]|e] st1]
    eqn:Hcheck; simpl in *.
  - by destruct (Hno c).
  - exists TypeError. split; [|exact Hframe].
    intros endpoint. by rewrite throttle_middleware_run, Hcheck.
  - exists e. split; [|exact Hframe].
    intros endpoint. by rewrite throttle_middleware_run, Hcheck.
Qed.

(** The other way round the two are not independent: a request of a
    client without a throttle record, refused by the rate limit with 429,
    has been recorded by the throttle all the same.  The store it leaves
    holds the record of an admitted request (the count 1 and the end of
    the throttle period, or with a limit below 1 the count 0 and the end
    of the cooldown), and the endpoint has not run. *)
Theorem rate_limited_request_is_throttle_recorded (ip : string)
    (now now' n : Z) (endpoint : py Redis.store Response)
    (st : Redis.store) :
  Redis.get (throttle_key ip) now st = None ->
  Redis.get (rate_limit_key ip) now' st = Some (Redis.Counter n) ->
  RATE_LIMIT cfg <= n ->
  exists seconds,
    0 < seconds
    /\ http_middlewares cfg strptime ip now now' endpoint st
       = (Raise (HTTPException 429 "Rate limit exceeded"),
          <[throttle_key ip :=
              Redis.mk_entry
                (if THROTTLE_LIMIT cfg <? 1
                 then Redis.Throttle 0 (now + COOLDOWN_PERIOD cfg * second_us)
                 else Redis.Throttle 1 (now + THROTTLE_PERIOD cfg * second_us))
                (Some (now + seconds * second_us))]> st).
Proof.
  intros Hthrottle Hrate Hfull.
  unfold http_middlewares. rewrite throttle_middleware_run.
  unfold check_throttle, throttle_current. unfold_py. rewrite Hthrottle.
  destruct (throttle_count_admits cfg (throttle_key ip) now 0
              (now + THROTTLE_PERIOD cfg * second_us) st)
    as (c' & r' & s & Hs & -> & Hcr & _).
  exists s. split; [exact Hs|].
  rewrite (rate_limit_middleware_refuses ip now' n); [| |exact Hfull].
  - change (0 + 1) with 1 in Hcr.
    destruct (THROTTLE_LIMIT cfg <? 1); by injection Hcr as -> ->.
  - rewrite get_insert_ne; [exact Hrate|].
    intros Heq. by apply (rate_limit_key_throttle_key ip ip).
Qed.

End Gates.

(** ** Runs of requests *)

Section Runs.

Import PlayersService.

Variable cfg : config.

(** Between two requests the counter of [ip] stands at [k] and expires
    a rate period after the request before. *)
Lemma check_rate_limits_pacing (ip : string) (times : list Z) :
  forall (k prev : Z) (st : Redis.store),
    0 < RATE_PERIOD cfg ->
    st !! rate_limit_key ip
    = Some (Redis.mk_entry (Redis.Counter k)
              (Some (prev + RATE_PERIOD cfg * second_us))) ->
    (forall i t t',
       (prev :: times) !! i = Some t -> times !! i = Some t' ->
       t <= t' < t + RATE_PERIOD cfg * second_us) ->
    k + Z.of_nat (length times) <= RATE_LIMIT cfg + 1 ->
    (check_rate_limits cfg ip times st).1
    = imap (fun j _ => Return (k + Z.of_nat j <? RATE_LIMIT cfg)) times.
Proof.
  induction times as [|t times IH]; intros k prev st Hpos Hst Hpace Hlen;
    [reflexivity|].
  pose proof (Hpace 0%nat prev t eq_refl eq_refl) as Ht.
  assert (Redis.get (rate_limit_key ip) t st = Some (Redis.Counter k))
    as Hget.
  { unfold Redis.get, Redis.live. rewrite Hst. simpl.
    destruct (Z.leb_spec t (prev + RATE_PERIOD cfg * second_us));
      [reflexivity | lia]. }
  simpl. rewrite (check_rate_limit_counter cfg Hpos _ _ _ _ Hget).
  replace (k + Z.of_nat 0) with k by lia.
  destruct (Z.leb_spec (RATE_LIMIT cfg) k) as [Hfull|Hroom].
  - destruct times as [|t' times]; [|simpl in Hlen; lia]. simpl.
    destruct (Z.ltb_spec k (RATE_LIMIT cfg)); [lia | reflexivity].
  - destruct (check_rate_limits cfg ip times (counted cfg ip t k st))
      as [os st''] eqn:Hrest.
    simpl. destruct (Z.ltb_spec k (RATE_LIMIT cfg)); [|lia]. f_equal.
    pose proof (IH (k + 1) t (counted cfg ip t k st) Hpos) as Hos.
    rewrite Hrest in Hos. simpl in Hos. rewrite Hos.
    + apply imap_ext. intros j t' _. simpl. do 2 f_equal. lia.
    + unfold counted. by rewrite lookup_insert_eq.
    + intros i u u' Hu Hu'. apply (Hpace (S i) u u'); assumption.
    + simpl in Hlen. lia.
Qed.

(** Every admitted request renews the expiry of the counter, so the
    counter is not bound to a window of [RATE_PERIOD]: for a client that
    the store does not know, as long as each request arrives less than a
    rate period after the one before, the requests are admitted while
    they number at most [RATE_LIMIT] and the next one is refused, however
    long the run has taken altogether. *)
Theorem check_rate_limits_paced (ip : string) (t0 : Z) (times : list Z)
    (st : Redis.store) :
  0 < RATE_PERIOD cfg ->
  Redis.get (rate_limit_key ip) t0 st = None ->
  (forall i t t',
     (t0 :: times) !! i = Some t -> times !! i = Some t' ->
     t <= t' < t + RATE_PERIOD cfg * second_us) ->
  Z.of_nat (length times) <= RATE_LIMIT cfg ->
  (check_rate_limits cfg ip (t0 :: times) st).1
  = Return true
    :: imap (fun j _ => Return (1 + Z.of_nat j <? RATE_LIMIT cfg)) times.
Proof.
  intros Hpos Hnew Hpace Hlen. simpl.
  rewrite (check_rate_limit_missing cfg Hpos _ _ _ Hnew).
  destruct (check_rate_limits cfg ip times (counted cfg ip t0 0 st))
    as [os st''] eqn:Hrest. simpl. f_equal.
  pose proof (check_rate_limits_pacing ip times 1 t0
                (counted cfg ip t0 0 st) Hpos) as Hos.
  rewrite Hrest in Hos. apply Hos; [|exact Hpace|lia].
  unfold counted. by rewrite lookup_insert_eq.
Qed.

(** A refusal lasts until the counter expires and no longer.  Once the
    counter of [ip] has reached the ceiling, the requests that arrive up
    to and at the instant of its expiry are all refused and leave the
    store as it is, so that none of them puts the expiry off; the first
    request after the expiry is admitted, and the counter starts again
    at 1 with a rate period to live. *)
Theorem check_rate_limits_refused_until_expiry (ip : string)
    (n deadline t : Z) (times : list Z) (st : Redis.store) :
  0 < RATE_PERIOD cfg ->
  st !! rate_limit_key ip
  = Some (Redis.mk_entry (Redis.Counter n) (Some deadline)) ->
  RATE_LIMIT cfg <= n ->
  Forall (fun t' => t' <= deadline) times ->
  deadline < t ->
  check_rate_limits cfg ip (times ++ [t]) st
  = (((fun _ => Return false) <$> times) ++ [Return true],
     counted cfg ip t 0 st).
Proof.
  intros Hpos Hst Hfull Hbefore Hafter.
  induction times as [|t' times IH]; simpl.
  - assert (Redis.get (rate_limit_key ip) t st = None) as Hget.
    { unfold Redis.get, Redis.live. rewrite Hst. simpl.
      destruct (Z.leb_spec t deadline); [lia | reflexivity]. }
    by rewrite (check_rate_limit_missing cfg Hpos _ _ _ Hget).
  - apply Forall_cons in Hbefore as [Ht' Hbefore].
    assert (Redis.get (rate_limit_key ip) t' st = Some (Redis.Counter n))
      as Hget.
    { unfold Redis.get, Redis.live. rewrite Hst. simpl.
      destruct (Z.leb_spec t' deadline); [reflexivity | lia]. }
    rewrite (check_rate_limit_counter cfg Hpos _ _ _ _ Hget).
    destruct (Z.leb_spec (RATE_LIMIT cfg) n); [|lia].
    by rewrite (IH Hbefore).
Qed.

Variable strptime : Z -> outcome Z.

(** The throttle admits one request per throttle period, whatever
    [THROTTLE_LIMIT] (of 1 or more) is.  The first request of a client
    without a record is admitted and stores the count 1 with the end of
    the period; every request of the client before that moment finds the
    record, and ends as line 108 does: with the exception it raises (as
    the module is written, [AttributeError]), or rejected with the time
    left.  None of them is admitted and none changes the record. *)
Theorem check_throttles_one_per_period (ip : string) (t0 : Z)
    (times : list Z) (st : Redis.store) :
  1 <= THROTTLE_LIMIT cfg ->
  1 <= THROTTLE_PERIOD cfg < 86400 ->
  (forall text t, strptime text = Return t -> t = text) ->
  Redis.get (throttle_key ip) t0 st = None ->
  Forall (fun t => t0 <= t < t0 + THROTTLE_PERIOD cfg * second_us) times ->
  let reset_time := t0 + THROTTLE_PERIOD cfg * second_us in
  check_throttles cfg strptime ip (t0 :: times) st
  = (Return (true, None)
     :: ((fun t =>
            match strptime reset_time with
            | Return _ => Return (false, Some (reset_time - t))
            | Raise e => Raise e
            end) <$> times),
     <[throttle_key ip :=
         Redis.mk_entry (Redis.Throttle 1 reset_time) (Some reset_time)]> st).
Proof.
  intros Hlimit Hperiod Hread Hnew Hin reset_time.
  set (st' := <[throttle_key ip :=
                  Redis.mk_entry (Redis.Throttle 1 reset_time)
                    (Some reset_time)]> st).
  assert (check_throttle cfg strptime ip t0 st = (Return (true, None), st'))
    as Hfirst.
  { unfold check_throttle, throttle_current. unfold_py. rewrite Hnew.
    destruct (throttle_count_admits cfg (throttle_key ip) t0 0
                (t0 + THROTTLE_PERIOD cfg * second_us) st)
      as (c' & r' & s & Hs & -> & Hcr & ->).
    change (0 + 1) with 1 in Hcr.
    destruct (Z.ltb_spec (THROTTLE_LIMIT cfg) 1); [lia|].
    injection Hcr as -> ->. subst st' reset_time.
    replace (t0 + THROTTLE_PERIOD cfg * second_us - t0)
      with (THROTTLE_PERIOD cfg * second_us) by lia.
    rewrite timedelta_seconds_field_small by lia.
    by rewrite Z.max_l by lia. }
  simpl. rewrite Hfirst.
  assert (check_throttles cfg strptime ip times st'
          = ((fun t =>
                match strptime reset_time with
                | Return _ => Return (false, Some (reset_time - t))
                | Raise e => Raise e
                end) <$> times, st')) as ->; [|reflexivity].
  induction times as [|t times IH]; [reflexivity|].
  apply Forall_cons in Hin as [Ht Hin]. simpl.
  assert (Redis.get (throttle_key ip) t st'
          = Some (Redis.Throttle 1 reset_time)) as Hget.
  { subst st'. rewrite get_insert_eq. unfold Redis.live. simpl.
    destruct (Z.leb_spec t reset_time); [reflexivity | subst reset_time; lia]. }
  assert (check_throttle cfg strptime ip t st'
          = (match strptime reset_time with
             | Return _ => Return (false, Some (reset_time - t))
             | Raise e => Raise e
             end, st')) as ->.
  { unfold check_throttle, throttle_current. unfold_py. rewrite Hget.
    destruct (strptime reset_time) as [r|e] eqn:Hparse; [|reflexivity].
    apply Hread in Hparse as ->.
    destruct (Z.ltb_spec t reset_time); [reflexivity | subst reset_time; lia]. }
  by rewrite (IH Hin).
Qed.

End Runs.

(** ** The cache key *)

Section CacheKey.

Import PlayersService.

Local Open Scope string_scope.

Lemma append_cons (x : ascii) (a b : string) :
  String x a ++ b = String x (a ++ b).
Proof. reflexivity. Qed.

Lemma append_nil (b : string) : EmptyString ++ b = b.
Proof. reflexivity. Qed.

Lemma append_assoc (a b c : string) : (a ++ b) ++ c = a ++ b ++ c.
Proof.
  induction a as [|x a IH]; [done|]. rewrite !append_cons. by f_equal.
Qed.

Lemma list_ascii_of_string_app (a b : string) :
  list_ascii_of_string (a ++ b)
  = (list_ascii_of_string a ++ list_ascii_of_string b)%list.
Proof.
  induction a as [|x a IH]; [done|]. rewrite append_cons. simpl.
  by rewrite IH.
Qed.

(** A text is cut in one way only at the first occurrence of a
    character. *)
Lemma cut_unique (c : ascii) (a a' b b' : string) :
  c ∉ list_ascii_of_string a ->
  c ∉ list_ascii_of_string a' ->
  a ++ String c b = a' ++ String c b' ->
  a = a' /\ b = b'.
Proof.
  revert a'. induction a as [|x a IH]; intros [|x' a'] Ha Ha';
    rewrite ?append_cons, ?append_nil.
  - by intros [= ->].
  - intros [= <- _]. destruct Ha'. simpl. left.
  - intros [= -> _]. destruct Ha. simpl. left.
  - intros [= <- Heq]. simpl in Ha, Ha'.
    apply not_elem_of_cons in Ha as [_ Ha].
    apply not_elem_of_cons in Ha' as [_ Ha'].
    by destruct (IH a' Ha Ha' Heq) as [-> ->].
Qed.

Lemma join_cons (sep part part' : string) (rest : list string) :
  join sep (part :: part' :: rest) = part ++ sep ++ join sep (part' :: rest).
Proof. reflexivity. Qed.

(** Parts without the separator are read back from their [join], given
    that none of them is empty. *)
Lemma join_inj (c : ascii) (parts parts' : list string) :
  Forall (fun p => (c ∉ list_ascii_of_string p) /\ p <> EmptyString) parts ->
  Forall (fun p => (c ∉ list_ascii_of_string p) /\ p <> EmptyString) parts' ->
  join (String c EmptyString) parts = join (String c EmptyString) parts' ->
  parts = parts'.
Proof.
  revert parts'.
  induction parts as [|p parts IH]; intros [|p' parts'] Hp Hp'.
  - done.
  - apply Forall_cons in Hp' as [[_ Hne] _].
    destruct parts' as [|q' parts']; simpl; [congruence|].
    destruct p'; [done | discriminate].
  - apply Forall_cons in Hp as [[_ Hne] _].
    destruct parts as [|q parts]; simpl; [congruence|].
    destruct p; [done | discriminate].
  - apply Forall_cons in Hp as [[Hc Hne] Hp].
    apply Forall_cons in Hp' as [[Hc' Hne'] Hp'].
    destruct parts as [|q parts], parts' as [|q' parts'].
    + simpl. by intros ->.
    + rewrite join_cons. simpl (join _ [p]). intros ->.
      destruct Hc. rewrite list_ascii_of_string_app. simpl.
      apply elem_of_app. right. left.
    + rewrite join_cons. simpl (join _ [p']). intros <-.
      destruct Hc'. rewrite list_ascii_of_string_app. simpl.
      apply elem_of_app. right. left.
    + rewrite !join_cons, !append_cons, !append_nil.
      intros Heq. destruct (cut_unique c _ _ _ _ Hc Hc' Heq) as [-> Hrest].
      f_equal. by apply IH.
Qed.

(** Two requests for the same function under the same namespace get the
    same cache key only if they have the same path and the same query
    parameters, as long as no path holds a question mark, no name of a
    parameter an ampersand or an equals sign, and no value an
    ampersand. *)
Theorem custom_key_builder_injective (func_name namespace path path' : string)
    (query_params query_params' : list (string * string)) :
  let clean (item : string * string) :=
    ("&"%char ∉ list_ascii_of_string item.1)
    /\ ("="%char ∉ list_ascii_of_string item.1)
    /\ ("&"%char ∉ list_ascii_of_string item.2) in
  "?"%char ∉ list_ascii_of_string path ->
  "?"%char ∉ list_ascii_of_string path' ->
  Forall clean query_params ->
  Forall clean query_params' ->
  custom_key_builder func_name namespace path query_params
  = custom_key_builder func_name namespace path' query_params' ->
  path = path' /\ query_params = query_params'.
Proof.
  intros clean Hpath Hpath' Hq Hq'. unfold custom_key_builder.
  rewrite !append_assoc. intros Heq.
  apply String.app_inj in Heq. rewrite !append_cons, !append_nil in Heq.
  injection Heq as Heq. apply String.app_inj in Heq.
  rewrite ?append_cons, ?append_nil in Heq. injection Heq as Heq.
  destruct (cut_unique _ _ _ _ _ Hpath Hpath' Heq) as [-> Hjoin].
  split; [reflexivity|].
  assert (forall items, Forall clean items ->
            Forall (fun p => ("&"%char ∉ list_ascii_of_string p)
                             /\ p <> EmptyString)
              ((fun '(key, value) => key ++ "=" ++ value) <$> items))
    as Hitems.
  { intros items Hclean. apply Forall_fmap. eapply Forall_impl; [exact Hclean|].
    intros [key value] (Hk & _ & Hv). simpl in *. split.
    - rewrite list_ascii_of_string_app, append_cons, append_nil. simpl.
      rewrite elem_of_app, elem_of_cons. intros [?|[?|?]]; done.
    - destruct key; discriminate. }
  apply join_inj in Hjoin; [|by apply Hitems..].
  clear Hitems Heq. revert query_params' Hq' Hjoin.
  induction Hq as [|[key value] items (_ & Hk & _) _ IH];
    intros [|[key' value'] items'] Hq'; simpl; try done.
  apply Forall_cons in Hq' as [(_ & Hk' & _) Hq']. simpl in *.
  intros [= Hitem Hrest]. rewrite !append_cons, !append_nil in Hitem.
  destruct (cut_unique _ _ _ _ _ Hk Hk' Hitem) as [-> ->].
  f_equal. by apply IH.
Qed.

(** Beyond that the key does not tell requests apart: a request with one
    parameter whose value spells a second parameter gets the key of the
    request that has the two parameters. *)
Theorem custom_key_builder_collision
    (func_name namespace path key value key' value' : string) :
  custom_key_builder func_name namespace path
    [(key, value ++ "&" ++ key' ++ "=" ++ value')]
  = custom_key_builder func_name namespace path
      [(key, value); (key', value')].
Proof.
  unfold custom_key_builder. simpl. by rewrite !append_assoc.
Qed.

End CacheKey.

(** ** Tokens from issue to use *)

Section TokenUse.

Import Common.

Context (env : environment).

(** Reading [disabled] on a [User] has no value to give: the schema
    declares no such field. *)
Lemma get_current_active_user_raises (current_user : gmap string attr) :
  get_current_active_user current_user = Raise AttributeError.
Proof. reflexivity. Qed.

(** The dependency [get_current_active_user] never yields a user and
    never raises its own 400 "Inactive user": it passes on the exception
    of [get_current_user], and where that returns a user it raises
    [AttributeError] at line 234; the calls to the token library are
    those of [get_current_user]. *)
Theorem Depends_get_current_active_user_raises (db : gmap Z (DBUser env))
    (x_access_token x_refresh_token : token) (now : Z) (log : list event) :
  Depends_get_current_active_user env db x_access_token x_refresh_token now
    log
  = (match (get_current_user env db x_access_token x_refresh_token now log).1
     with
     | Return _ => Raise AttributeError
     | Raise e => Raise e
     end,
     (get_current_user env db x_access_token x_refresh_token now log).2).
Proof.
  unfold Depends_get_current_active_user. unfold_py.
  destruct (get_current_user env db x_access_token x_refresh_token now log)
    as [[user|e] log']; [|reflexivity].
  simpl. by rewrite get_current_active_user_raises.
Qed.


(** [get_current_user] on a token that [authenticate_user] issued,
    while it is good: after the one decoding the call goes on from line
    167, with the [NameError] of the unbound name as the module is
    written, and in a module that binds the name with the resolution of
    the subject (or with 429 under a negative ceiling). *)
Lemma get_current_user_issued (db : gmap Z (DBUser env))
    (x_refresh_token : token) (subject : string) (exp later : Z) :
  truthy x_refresh_token = true ->
  later <= exp ->
  let tok :=
    Jwt (SECRET_KEY env) (ALGORITHM env)
      (<["exp"%string := JInt exp]>
         (<["req_count"%string := JInt 0]> {["sub"%string := JStr subject]}))
  in
  get_current_user env db tok x_refresh_token later []
  = (match RATE_LIMIT env with
     | None => Raise NameError
     | Some limit =>
         if limit <? 0 then Raise (HTTPException 429 "Rate limit exceeded")
         else current_user_of env db x_refresh_token (JStr subject) None
     end,
     [Decode tok]).
Proof.
  intros Hr Hlater tok. unfold get_current_user.
  rewrite Hr. unfold_py. simpl.
  assert ((jwt_decode env tok later []).1
          = Return (<["exp"%string := JInt exp]>
                      (<["req_count"%string := JInt 0]>
                         {["sub"%string := JStr subject]}))) as Hdec.
  { subst tok. rewrite jwt_decode_own; try done.
    - simpl. destruct (Z.leb_spec later exp); [reflexivity | lia].
    - intros v. rewrite lookup_insert_ne, lookup_singleton_eq by done.
      intros [= <-]. eauto. }
  rewrite (current_subject_access_valid _ _ _ _ _ Hdec). unfold get.
  rewrite (lookup_insert_ne _ "exp"%string "req_count"%string) by done.
  rewrite lookup_insert_eq. unfold over_limit. simpl.
  destruct (RATE_LIMIT env) as [limit|]; [|reflexivity].
  destruct (limit <? 0); [reflexivity|].
  rewrite !lookup_insert_ne, lookup_singleton_eq by done. simpl.
  by destruct (current_user_of env db x_refresh_token (JStr subject) None).
Qed.

(** Nothing in a token says which of the two it is, and nothing is asked:
    the refresh token that [authenticate_user] issued, presented as the
    access token, is taken for one during its whole life.  With any
    non-empty text in the refresh header it is decoded, and the call
    goes on from line 167 exactly as it does for the access token while
    that is good, without decoding anything else and without rotation:
    as the module is written with the [NameError] of the unbound
    [RATE_LIMIT], and in a module that binds the name with the
    resolution of [sub = username]. *)
Theorem refresh_token_passes_for_access_token (db : gmap Z (DBUser env))
    (user_id : Z) (password : string) (issued later : Z)
    (x_refresh_token : token) (user : DBUser env) :
  db !! user_id = Some user ->
  verify_password env password (hashed_password env user) = true ->
  truthy x_refresh_token = true ->
  exists tokens log,
    authenticate_user env db user_id password issued [] = (Return tokens, log)
    /\ let outcome :=
         match RATE_LIMIT env with
         | None => Raise NameError
         | Some limit =>
             if limit <? 0
             then Raise (HTTPException 429 "Rate limit exceeded")
             else current_user_of env db x_refresh_token
                    (JStr (username env user)) None
         end in
       (later <= issued + ACCESS_TOKEN_EXPIRE_MINUTES env * 60 ->
        get_current_user env db (access_token tokens) x_refresh_token later []
        = (outcome, [Decode (access_token tokens)]))
       /\ (later <= issued + REFRESH_TOKEN_EXPIRE_DAYS env * 86400 ->
           get_current_user env db (refresh_token tokens) x_refresh_token
             later []
           = (outcome, [Decode (refresh_token tokens)])).
Proof.
  intros Hdb Hpw Hr.
  rewrite (authenticate_user_accepts _ _ _ _ _ _ Hdb Hpw).
  eexists _, _. split; [reflexivity|]. simpl.
  split; intros Hlater; by apply get_current_user_issued.
Qed.

Lemma int_of_jvalue_raises (v : jvalue) (e : exn) :
  int_of_jvalue v = Raise e -> e = TypeError \/ e = ValueError.
Proof.
  destruct v as [|n|s]; simpl; try (intros [= <-]; by eauto).
  intros Hint. apply int_of_str_raises in Hint. by right.
Qed.

Lemma User_setattr_raises (name : string) (value : attr)
    (user : gmap string attr) (e : exn) :
  User_setattr name value user = Raise e -> e = ValueError.
Proof. unfold User_setattr. case_match; congruence. Qed.

Lemma current_user_of_raises (db : gmap Z (DBUser env))
    (x_refresh_token : token) (username : jvalue)
    (new_access_token : option token) (e : exn) :
  current_user_of env db x_refresh_token username new_access_token = Raise e ->
  e = HTTPException 401 "Could not validate credentials"
  \/ e = TypeError \/ e = ValueError
  \/ exists user, User_of env user = Raise e.
Proof.
  unfold current_user_of, outcome_bind.
  destruct (int_of_jvalue username) as [user_id|e'] eqn:Hint.
  - destruct (db !! user_id) as [user|]; [|intros [= <-]; eauto].
    destruct (User_of env user) as [fields|e'] eqn:Huser;
      [|intros [= <-]; eauto 6].
    destruct new_access_token as [new|]; [|discriminate].
    destruct (truthy new); [|discriminate].
    destruct (User_setattr "access_token" (AToken new) fields)
      as [fields'|e'] eqn:Hset.
    + intros Hset'. apply User_setattr_raises in Hset' as ->. eauto.
    + intros [= <-]. apply User_setattr_raises in Hset as ->. eauto.
  - intros [= <-]. apply int_of_jvalue_raises in Hint as [->| ->]; eauto.
Qed.

(** The exceptions of lines 162 to 203. *)
Lemma current_subject_raises (x_access_token x_refresh_token : token)
    (now : Z) (e : exn) (log : list event) :
  current_subject env x_access_token x_refresh_token now [] = (Raise e, log) ->
  In e [NameError; TypeError;
        HTTPException 429 "Rate limit exceeded";
        HTTPException 401 "Access token is invalid";
        HTTPException 401 "Refresh token is invalid";
        HTTPException 401 "Refresh token is expired"].
Proof.
  destruct (jwt_decode env x_access_token now []).1 as [pa|ea] eqn:Hacc.
  { rewrite (current_subject_access_valid _ _ _ _ _ Hacc).
    unfold over_limit.
    repeat case_match; intros; simplify_eq; simpl; tauto. }
  apply jwt_decode_raises in Hacc as Hea. destruct Hea as [->| ->].
  - destruct (jwt_decode env x_refresh_token now []).1 as [pr|er] eqn:Href.
    + rewrite (current_subject_refresh_valid _ _ _ _ _ Hacc Href).
      repeat case_match; intros; simplify_eq; simpl; tauto.
    + apply jwt_decode_raises in Href as Her. destruct Her as [->| ->].
      * rewrite (current_subject_both_invalid _ _ _ _ Hacc Href).
        intros; simplify_eq; simpl; tauto.
      * rewrite (current_subject_refresh_TypeError _ _ _ _ Hacc Href).
        intros; simplify_eq; simpl; tauto.
  - rewrite (current_subject_access_TypeError _ _ _ _ Hacc).
    intros; simplify_eq; simpl; tauto.
Qed.

(** The ways in which [get_current_user] fails.  An exception that
    comes out of it is the [NameError] of line 167 (as the module is
    written, on every access token that decodes), one of the six
    [HTTPException]s of the function (five with 401, one with 429), a
    [TypeError] or a [ValueError], or it was raised while the schema
    instance was built from the record.  In particular no [JWTError] of
    the token library comes out. *)
Theorem get_current_user_exceptions (db : gmap Z (DBUser env))
    (x_access_token x_refresh_token : token) (now : Z) (e : exn) :
  (get_current_user env db x_access_token x_refresh_token now []).1 = Raise e ->
  In e [NameError;
        HTTPException 401 "Access token or refresh token is missing";
        HTTPException 429 "Rate limit exceeded";
        HTTPException 401 "Access token is invalid";
        HTTPException 401 "Refresh token is invalid";
        HTTPException 401 "Refresh token is expired";
        HTTPException 401 "Could not validate credentials";
        TypeError; ValueError]
  \/ exists user, User_of env user = Raise e.
Proof.
  unfold get_current_user.
  destruct (negb (truthy x_access_token) || negb (truthy x_refresh_token));
    [intros [= <-]; left; simpl; tauto|].
  unfold_py.
  destruct (current_subject env x_access_token x_refresh_token now [])
    as [[[subject new]|e'] log] eqn:Hcur; simpl.
  - intros Hraise.
    apply current_user_of_raises in Hraise as [->|[->|[->|Huser]]];
      [left; simpl; tauto..|by right].
  - intros [= <-]. left. apply current_subject_raises in Hcur.
    simpl in *. tauto.
Qed.

End TokenUse.

(** ** One window of [FixedWindow] *)

(** With the window given as a [timedelta] whose end is a moment that a
    [datetime] can hold, calls that all read the clock before the end of
    the current window are admitted exactly while the counter is below
    the limit: the call that finds the counter [j] calls after the first
    is admitted when [counter + j] is below [limit].  The window start
    stays, and the counter ends at the limit or at the number of calls
    counted, never past the limit unless it started there.  (With the
    end of the window past the year 9999 every call raises
    [OverflowError] at line 125.) *)
Theorem FixedWindow_window_quota (readings : list (Z * Z)) :
  forall (self : FixedWindow.t) (start size limit counter : Z),
    FixedWindow.window_start self = PDatetime start ->
    FixedWindow.window_size self = PTimedelta size ->
    FixedWindow.limit self = PInt limit ->
    FixedWindow.counter self = PInt counter ->
    datetime_in_range (start + size) = true ->
    Forall (fun r => r.1 < start + size) readings ->
    FixedWindow.allow_requests
      ((fun r => (current_time r.1, current_time r.2)) <$> readings) self
    = (imap (fun j _ => Return (counter + Z.of_nat j <? limit)) readings,
       FixedWindow.set_counter
         (PInt (Z.max counter
                  (Z.min limit (counter + Z.of_nat (length readings)))))
         self).
Proof.
  induction readings as [|[t t'] readings IH];
    intros self start size limit counter Hstart Hsize Hlimit Hcounter Hend Hin.
  - simpl. f_equal. destruct self as [l w c s]. simpl in *. subst.
    unfold FixedWindow.set_counter. simpl. do 2 f_equal. lia.
  - apply Forall_cons in Hin as [Ht Hin]. simpl in Ht.
    cbn [fmap list_fmap FixedWindow.allow_requests fst snd].
    rewrite (FixedWindow_same_window self t t' start size limit counter)
      by done.
    destruct (Z.ltb_spec counter limit) as [Hroom|Hfull].
    + rewrite (IH (FixedWindow.set_counter (PInt (counter + 1)) self)
                 start size limit (counter + 1)); try done.
      cbn [imap]. f_equal.
      * f_equal; [f_equal; symmetry; apply Z.ltb_lt; lia|].
        apply imap_ext. intros j r _. simpl. do 2 f_equal. lia.
      * destruct self as [l w c s]. unfold FixedWindow.set_counter. simpl.
        do 2 f_equal. simpl length. lia.
    + rewrite (IH self start size limit counter); try done.
      cbn [imap]. f_equal.
      * f_equal; [f_equal; symmetry; apply Z.ltb_ge; lia|].
        apply imap_ext. intros j r _. simpl. f_equal.
        destruct (Z.ltb_spec (counter + Z.of_nat j) limit);
          destruct (Z.ltb_spec (counter + Z.of_nat (S j)) limit);
          (reflexivity || lia).
      * do 2 f_equal. simpl length. lia.
Qed.

(** ** Loggers *)

Section Loggers.

Import Logging.


Lemma get_service_logger_handlers (name name' : string) (s : state) :
  (forall key lg h,
     loggers s !! key = Some lg -> h ∈ handlers lg ->
     (handler_id h < handlers_made s)%nat) ->
  handlers (getLogger name' (get_service_logger name s).2)
  = if bool_decide (logger_key name' = logger_key name)
    then handlers (getLogger name' s)
         ++ [mk_handler (handlers_made s) DEBUG JSONFormatter]
    else handlers (getLogger name' s).
Proof.
  intros Hmade. unfold get_service_logger, getLogger at 1. simpl.
  case_bool_decide as Hkey.
  - rewrite Hkey, lookup_insert_eq. simpl.
    unfold addHandler, setLevel, getLogger. simpl. rewrite Hkey.
    case_bool_decide as Hin; [|reflexivity].
    apply list_elem_of_fmap in Hin as (h & Hid & Hin).
    destruct (loggers s !! logger_key name) as [lg|] eqn:Hlg; simpl in Hin.
    + pose proof (Hmade _ _ _ Hlg Hin). lia.
    + by apply elem_of_nil in Hin.
  - by rewrite lookup_insert_ne.
Qed.

Lemma get_service_logger_made (name : string) (s : state) :
  (forall key lg h,
     loggers s !! key = Some lg -> h ∈ handlers lg ->
     (handler_id h < handlers_made s)%nat) ->
  forall key lg h,
    loggers (get_service_logger name s).2 !! key = Some lg ->
    h ∈ handlers lg ->
    (handler_id h < handlers_made (get_service_logger name s).2)%nat.
Proof.
  intros Hmade key lg h. unfold get_service_logger. simpl.
  destruct (decide (key = logger_key name)) as [->|Hne].
  - rewrite lookup_insert_eq. intros [= <-].
    unfold addHandler, setLevel, getLogger. simpl.
    case_bool_decide; simpl.
    + destruct (loggers s !! logger_key name) as [lg|] eqn:Hlg; simpl.
      * intros Hin. pose proof (Hmade _ _ _ Hlg Hin). lia.
      * by intros ?%elem_of_nil.
    + rewrite elem_of_app, list_elem_of_singleton. intros [Hin| ->].
      * destruct (loggers s !! logger_key name) as [lg|] eqn:Hlg;
          simpl in Hin.
        -- pose proof (Hmade _ _ _ Hlg Hin). lia.
        -- by apply elem_of_nil in Hin.
      * simpl. lia.
  - rewrite lookup_insert_ne by done. intros Hlg Hin.
    pose proof (Hmade _ _ _ Hlg Hin). lia.
Qed.

(** [get_service_logger] is not idempotent: every call makes a console
    handler and adds it to the logger it names, next to those the logger
    has.  After any run of calls a logger carries the handlers it had,
    followed by one handler with level [DEBUG] and the JSON formatter
    for each call that named it (the empty name naming the root logger),
    and none for the calls that named another logger. *)
Theorem get_service_logger_accumulates (names : list string) :
  forall (s : state) (name : string),
    (forall key lg h,
       loggers s !! key = Some lg -> h ∈ handlers lg ->
       (handler_id h < handlers_made s)%nat) ->
    exists added,
      handlers (getLogger name (get_service_loggers names s))
      = handlers (getLogger name s) ++ added
      /\ length added
         = length (filter (fun n => logger_key n = logger_key name) names)
      /\ Forall (fun h => handler_level h = DEBUG
                          /\ handler_formatter h = JSONFormatter) added.
Proof.
  induction names as [|n names IH]; intros s name Hmade.
  - exists []. by rewrite app_nil_r.
  - destruct (IH (get_service_logger n s).2 name
                (get_service_logger_made n s Hmade))
      as (added & Hhandlers & Hlength & Hall).
    change (get_service_loggers (n :: names) s)
      with (get_service_loggers names (get_service_logger n s).2).
    rewrite Hhandlers.
    rewrite (get_service_logger_handlers n name s Hmade).
    rewrite filter_cons. case_bool_decide as Hkey.
    + rewrite decide_True by done.
      exists (mk_handler (handlers_made s) DEBUG JSONFormatter :: added).
      split; [by rewrite <- app_assoc|]. split; [simpl; by f_equal|].
      by apply Forall_cons.
    + rewrite decide_False by (intros Heq; by apply Hkey).
      by exists added.
Qed.

End Loggers.

(** ** Instances of the above *)

(** A client in its throttle period, with the class method in the place
    of line 108's lookup: the rejection ends in [TypeError]. *)
Lemma throttle_middleware_never_answers_429_witness :
  let st : Redis.store :=
    {[PlayersService.throttle_key "203.0.113.7" :=
        Redis.mk_entry (Redis.Throttle 1 1060000123) (Some 1060000123)]} in
  PlayersService.throttle_middleware PlayersService.settings
    PlayersService.datetime_datetime_strptime "203.0.113.7" 1001000123
    (py_ret tt) st
  = (Raise TypeError, st).
Proof.
  intros st.
  apply (proj1 (throttle_middleware_never_answers_429 PlayersService.settings
                  PlayersService.datetime_datetime_strptime "203.0.113.7"
                  1001000123 (py_ret tt) st
                  ltac:(intros text status detail;
                        unfold PlayersService.datetime_datetime_strptime;
                        case_match; discriminate))
           (Some 59000000) st).
  reflexivity.
Defined.

(** The same client as the module is written: the request ends in the
    [AttributeError] of line 108, whatever the endpoint is. *)
Lemma http_middlewares_throttle_first_witness :
  let st : Redis.store :=
    {[PlayersService.throttle_key "203.0.113.7" :=
        Redis.mk_entry (Redis.Throttle 1 1060000123) (Some 1060000123)]} in
  exists e,
    forall endpoint : py Redis.store unit,
      PlayersService.http_middlewares PlayersService.settings
        PlayersService.datetime_strptime "203.0.113.7" 1001000123 1001000456
        endpoint st
      = (Raise e, st).
Proof.
  intros st.
  destruct (http_middlewares_throttle_first PlayersService.settings
              PlayersService.datetime_strptime (Response := unit)
              "203.0.113.7" 1001000123 1001000456 st)
    as (e & Hrun & _).
  - intros cooldown_time Hret. discriminate Hret.
  - exists e. exact Hrun.
Defined.

(** A client at the ceiling of the rate limit and unknown to the
    throttle. *)
Lemma rate_limited_request_is_throttle_recorded_witness :
  let st : Redis.store :=
    {[PlayersService.rate_limit_key "203.0.113.7" :=
        Redis.mk_entry (Redis.Counter 5) (Some 1050000000)]} in
  exists seconds,
    0 < seconds
    /\ PlayersService.http_middlewares PlayersService.settings
         PlayersService.datetime_strptime "203.0.113.7" 1001000123 1001000456
         (py_ret tt) st
       = (Raise (HTTPException 429 "Rate limit exceeded"),
          <[PlayersService.throttle_key "203.0.113.7" :=
              Redis.mk_entry (Redis.Throttle 1 1061000123)
                (Some (1001000123 + seconds * second_us))]> st).
Proof.
  intros st.
  apply (rate_limited_request_is_throttle_recorded PlayersService.settings
           PlayersService.datetime_strptime "203.0.113.7" 1001000123
           1001000456 5 (py_ret tt) st);
    [reflexivity | reflexivity | by compute].
Defined.

(** The sixth request of a client at the ceiling. *)
Lemma rate_limit_middleware_gate_witness :
  let st : Redis.store :=
    {[PlayersService.rate_limit_key "203.0.113.7" :=
        Redis.mk_entry (Redis.Counter 5) (Some 1050000000)]} in
  PlayersService.rate_limit_middleware PlayersService.settings "203.0.113.7"
    1001000456 (py_ret tt) st
  = (Raise (HTTPException 429 "Rate limit exceeded"), st).
Proof.
  intros st.
  apply (rate_limit_middleware_gate PlayersService.settings "203.0.113.7"
           1001000456 (py_ret tt) st).
  reflexivity.
Defined.

(** Six requests 59 seconds apart, with the constants of [main.py]: the
    sixth is refused, nearly five minutes after the first. *)
Lemma check_rate_limits_paced_witness :
  (PlayersService.check_rate_limits PlayersService.settings "203.0.113.7"
     [0; 59000000; 118000000; 177000000; 236000000; 295000000] ∅).1
  = [Return true; Return true; Return true; Return true; Return true;
     Return false].
Proof.
  apply (check_rate_limits_paced PlayersService.settings "203.0.113.7" 0
           [59000000; 118000000; 177000000; 236000000; 295000000] ∅).
  - reflexivity.
  - reflexivity.
  - intros i t t' Ht Ht'.
    repeat (destruct i as [|i];
            [injection Ht as <-; injection Ht' as <-; by compute|]).
    discriminate Ht'.
  - by compute.
Defined.

(** A client at the ceiling whose counter expires at second 60: three
    refusals, the last of them at the instant of the expiry, then the
    request a microsecond later. *)
Lemma check_rate_limits_refused_until_expiry_witness :
  let st : Redis.store :=
    {[PlayersService.rate_limit_key "203.0.113.7" :=
        Redis.mk_entry (Redis.Counter 5) (Some 60000000)]} in
  PlayersService.check_rate_limits PlayersService.settings "203.0.113.7"
    [1000000; 59999999; 60000000; 60000001] st
  = ([Return false; Return false; Return false; Return true],
     PlayersService.counted PlayersService.settings "203.0.113.7" 60000001 0
       st).
Proof.
  intros st.
  apply (check_rate_limits_refused_until_expiry PlayersService.settings
           "203.0.113.7" 5 60000000 60000001 [1000000; 59999999; 60000000] st).
  - reflexivity.
  - reflexivity.
  - by compute.
  - repeat (constructor; [by compute|]). constructor.
  - reflexivity.
Defined.

(** Three requests of one client inside a throttle period, as the module
    is written. *)
Lemma check_throttles_one_per_period_witness :
  PlayersService.check_throttles PlayersService.settings
    PlayersService.datetime_strptime "203.0.113.7"
    [1000000123; 1000500000; 1059000000] ∅
  = ([Return (true, None); Raise AttributeError; Raise AttributeError],
     {[PlayersService.throttle_key "203.0.113.7" :=
         Redis.mk_entry (Redis.Throttle 1 1060000123) (Some 1060000123)]}).
Proof.
  apply (check_throttles_one_per_period PlayersService.settings
           PlayersService.datetime_strptime "203.0.113.7" 1000000123
           [1000500000; 1059000000] ∅).
  - by compute.
  - split; [by compute | reflexivity].
  - intros text t Hparse. discriminate Hparse.
  - reflexivity.
  - repeat constructor; by compute.
Defined.

(** The key of a request for a page of players. *)
Lemma custom_key_builder_injective_witness :
  ("/players/" = "/players/")%string
  /\ [("page", "2"); ("limit", "10")]%string
     = [("page", "2"); ("limit", "10")]%string.
Proof.
  apply (custom_key_builder_injective "get_players" "fastapi-cache"
           "/players/" "/players/"
           [("page", "2"); ("limit", "10")]%string
           [("page", "2"); ("limit", "10")]%string);
    try reflexivity; try compute_done;
    repeat constructor; compute_done.
Defined.


(** The refresh token of the third user in the access header, six days
    after it was issued, in the module as it is written. *)
Lemma refresh_token_passes_for_access_token_witness :
  exists tokens log,
    Common.authenticate_user Common.written_env Common.demo_db 3 "second"
      1000 []
    = (Return tokens, log)
    /\ Common.get_current_user Common.written_env Common.demo_db
         (Common.refresh_token tokens) (Common.Text "x") 519400 []
       = (Raise NameError, [Common.Decode (Common.refresh_token tokens)]).
Proof.
  destruct (refresh_token_passes_for_access_token Common.written_env
              Common.demo_db 3 "second" 1000 519400 (Common.Text "x")
              (Common.mk_user_row 3 "2" "second" "Carol Two"))
    as (tokens & log & Hissued & _ & Hrefresh);
    [reflexivity..|].
  exists tokens, log. split; [exact Hissued|].
  apply Hrefresh. by compute.
Defined.

(** An access token that decodes, in the module as it is written. *)
Lemma get_current_user_exceptions_witness :
  (Common.get_current_user Common.written_env Common.demo_db
     (Common.demo_token "1" 6 2800) (Common.demo_token "1" 0 605800)
     1000 []).1
  = Raise NameError
  /\ (In NameError
        [NameError;
         HTTPException 401 "Access token or refresh token is missing";
         HTTPException 429 "Rate limit exceeded";
         HTTPException 401 "Access token is invalid";
         HTTPException 401 "Refresh token is invalid";
         HTTPException 401 "Refresh token is expired";
         HTTPException 401 "Could not validate credentials";
         TypeError; ValueError]
      \/ exists user,
           Common.User_of Common.written_env user = Raise NameError).
Proof.
  split; [reflexivity|].
  apply (get_current_user_exceptions Common.written_env Common.demo_db
           (Common.demo_token "1" 6 2800) (Common.demo_token "1" 0 605800)
           1000).
  reflexivity.
Defined.

(** A wrong password for the first user. *)
Lemma authenticate_user_refuses_witness :
  Common.authenticate_user Common.demo_env Common.demo_db 1 "looking-glass"
    1000 []
  = (Raise (HTTPException 401 "Incorrect username or password"), []).
Proof.
  apply (authenticate_user_refuses Common.demo_env Common.demo_db 1
           "looking-glass" 1000).
  intros user Hdb. injection Hdb as <-. reflexivity.
Defined.

(** Three calls inside the first window of a limiter of two calls a
    minute. *)
Lemma FixedWindow_window_quota_witness :
  FixedWindow.allow_requests
    [(current_time 1000000, current_time 1000001);
     (current_time 2000000, current_time 2000001);
     (current_time 59999999, current_time 60000000)]
    (FixedWindow.init (PInt 2) (timedelta_seconds 60) (current_time 0))
  = ([Return true; Return true; Return false],
     FixedWindow.mk (PInt 2) (timedelta_seconds 60) (PInt 2) (PDatetime 0)).
Proof.
  apply (FixedWindow_window_quota
           [(1000000, 1000001); (2000000, 2000001); (59999999, 60000000)]
           (FixedWindow.init (PInt 2) (timedelta_seconds 60) (current_time 0))
           0 (60 * second_us) 2 0);
    try reflexivity.
  repeat constructor.
Defined.

(** Two modules asking for the same logger, and one for another. *)
Lemma get_service_logger_accumulates_witness :
  exists added,
    Logging.handlers
      (Logging.getLogger "players"
         (Logging.get_service_loggers ["players"; "main"; "players"]%string
            (Logging.mk_state ∅ 0)))
    = added
    /\ length added = 2%nat.
Proof.
  destruct (get_service_logger_accumulates ["players"; "main"; "players"]%string
              (Logging.mk_state ∅ 0) "players")
    as (added & Hhandlers & Hlength & _).
  - intros key lg h Hlg. discriminate Hlg.
  - exists added. split; [exact Hhandlers | exact Hlength].
Defined.
